(** * siem-platform ingest service: tenant resolution, ingestion and
      publication, with the windowed state store of the detection side.

    The Go sources of [services/ingest-service] are embedded as Rocq
    functions over an explicit world state (response recorder, publisher,
    structured log, entropy and clock counters).  Third-party library
    calls ([jwt.Parse], [json.Unmarshal], [uuid.New], [time.Now],
    [http.ServeMux] routing) are fields of the [Externals] class, so every
    theorem holds whatever those libraries compute. *)

From Stdlib Require Import ZArith Lia Bool Ascii String List.
From stdpp Require Import base option list strings gmap fin_maps.

Open Scope string_scope.
Open Scope Z_scope.

(** ** Byte-level string helpers *)

(** Go's [len(s)] is the byte length; a Rocq [string] is a list of bytes. *)
Definition len (s : string) : Z := Z.of_nat (String.length s).

(** [strings.HasPrefix] *)
Definition HasPrefix (s p : string) : bool := String.prefix p s.

(** [strings.TrimPrefix]: drops [p] when [s] starts with it. *)
Definition TrimPrefix (s p : string) : string :=
  if HasPrefix s p
  then String.substring (String.length p) (String.length s - String.length p) s
  else s.

(** The double-quote byte, used when the service writes JSON text. *)
Definition dquote : string := String (Ascii.ascii_of_nat 34) EmptyString.
Definition quoted (s : string) : string := dquote ++ s ++ dquote.

(** ** [net/http] headers *)

Module Header.

Definition is_upper (c : ascii) : bool :=
  let n := nat_of_ascii c in (65 <=? n)%nat && (n <=? 90)%nat.
Definition is_lower (c : ascii) : bool :=
  let n := nat_of_ascii c in (97 <=? n)%nat && (n <=? 122)%nat.
Definition is_digit (c : ascii) : bool :=
  let n := nat_of_ascii c in (48 <=? n)%nat && (n <=? 57)%nat.
Definition to_upper (c : ascii) : ascii :=
  if is_lower c then ascii_of_nat (nat_of_ascii c - 32) else c.
Definition to_lower (c : ascii) : ascii :=
  if is_upper c then ascii_of_nat (nat_of_ascii c + 32) else c.

(** [textproto]'s token bytes: letters, digits and a few symbols. *)
Definition is_token_byte (c : ascii) : bool :=
  is_upper c || is_lower c || is_digit c ||
  existsb (Ascii.eqb c) (list_ascii_of_string "!#$%&'*+-.^_`|~").

Fixpoint all_token (s : string) : bool :=
  match s with
  | EmptyString => true
  | String c s' => is_token_byte c && all_token s'
  end.

Fixpoint canon (upper : bool) (s : string) : string :=
  match s with
  | EmptyString => EmptyString
  | String c s' =>
      String (if upper then to_upper c else to_lower c)
             (canon (Ascii.eqb c "-"%char) s')
  end.

(** [textproto.CanonicalMIMEHeaderKey]: a key holding a non-token byte is
    returned as it is; otherwise the first letter and every letter after
    a hyphen are upper-cased and the others lower-cased. *)
Definition CanonicalKey (k : string) : string :=
  if all_token k then canon true k else k.

(** [http.Header] is [map[string][]string]. *)
Abbreviation t := (gmap string (list string)).

(** [Header.Get]: first value stored under the canonical key, or [""]. *)
Definition Get (h : t) (key : string) : string :=
  match h !! CanonicalKey key with
  | Some (v :: _) => v
  | _ => ""
  end.

(** [Header.Set]: replaces the values of the canonical key by [[v]]. *)
Definition Set_ (h : t) (key v : string) : t :=
  <[CanonicalKey key := [v]]> h.

End Header.

(** ** Values, results and the canonical event ([models.Event]) *)

(** Go's [error] values are carried by their message. *)
Inductive result (A : Type) : Type :=
| Ok (a : A)
| Err (e : string).
Arguments Ok {A} a.
Arguments Err {A} e.

(** What [encoding/json] stores in an [interface{}]. *)
#[local] Set Warnings "-register-all".
Inductive JSONValue : Type :=
| JNull
| JBool (b : bool)
| JNumber (literal : string)
| JString (s : string)
| JArray (items : list JSONValue)
| JObject (members : list (string * JSONValue)).

Record Source := {
  System : string;
  Integration : string;
  Host : string
}.

Record Actor := {
  ActorType : string;
  ActorID : string;
  ActorName : string;
  ActorEmail : string
}.

Record Target := {
  TargetType : string;
  TargetID : string;
  TargetName : string
}.

Record Event := {
  TenantID : string;
  EventID : string;
  Timestamp : string;
  EventSource : Source;
  Category : string;
  Severity : Z;
  EventActor : option Actor;
  EventTarget : option Target;
  Action : string;
  Outcome : string;
  Attributes : list (string * JSONValue);
  RawRef : string;
  Tags : list string
}.

(** Field assignments of [IngestEvents] ([event.TenantID = ...] and so on). *)
Definition set_TenantID (v : string) (e : Event) : Event :=
  {| TenantID := v; EventID := EventID e; Timestamp := Timestamp e;
     EventSource := EventSource e; Category := Category e;
     Severity := Severity e; EventActor := EventActor e;
     EventTarget := EventTarget e; Action := Action e; Outcome := Outcome e;
     Attributes := Attributes e; RawRef := RawRef e; Tags := Tags e |}.

Definition set_EventID (v : string) (e : Event) : Event :=
  {| TenantID := TenantID e; EventID := v; Timestamp := Timestamp e;
     EventSource := EventSource e; Category := Category e;
     Severity := Severity e; EventActor := EventActor e;
     EventTarget := EventTarget e; Action := Action e; Outcome := Outcome e;
     Attributes := Attributes e; RawRef := RawRef e; Tags := Tags e |}.

Definition set_Timestamp (v : string) (e : Event) : Event :=
  {| TenantID := TenantID e; EventID := EventID e; Timestamp := v;
     EventSource := EventSource e; Category := Category e;
     Severity := Severity e; EventActor := EventActor e;
     EventTarget := EventTarget e; Action := Action e; Outcome := Outcome e;
     Attributes := Attributes e; RawRef := RawRef e; Tags := Tags e |}.

Definition set_SourceHost (v : string) (e : Event) : Event :=
  {| TenantID := TenantID e; EventID := EventID e; Timestamp := Timestamp e;
     EventSource := {| System := System (EventSource e);
                      Integration := Integration (EventSource e);
                      Host := v |};
     Category := Category e;
     Severity := Severity e; EventActor := EventActor e;
     EventTarget := EventTarget e; Action := Action e; Outcome := Outcome e;
     Attributes := Attributes e; RawRef := RawRef e; Tags := Tags e |}.

(** The zero value of [models.Event], as [var event models.Event] gives. *)
Definition zero_Event : Event :=
  {| TenantID := ""; EventID := ""; Timestamp := "";
     EventSource := {| System := ""; Integration := ""; Host := "" |};
     Category := ""; Severity := 0; EventActor := None; EventTarget := None;
     Action := ""; Outcome := ""; Attributes := []; RawRef := ""; Tags := [] |}.

(** ** Requests, contexts and the response writer *)

(** Values stored in a [context.Context]; this service stores strings. *)
Inductive CtxValue : Type :=
| CtxString (s : string)
| CtxOther.

(** A context is the chain of [WithValue] frames, the newest first. *)
Definition Context := list (string * CtxValue).

Definition context_WithValue (ctx : Context) (key : string) (v : CtxValue) : Context :=
  (key, v) :: ctx.

Fixpoint context_Value (ctx : Context) (key : string) : option CtxValue :=
  match ctx with
  | [] => None
  | (k, v) :: parent =>
      if String.eqb k key then Some v else context_Value parent key
  end.

(** [r.Context().Value(key).(string)] in its two-result form. *)
Definition context_String (ctx : Context) (key : string) : option string :=
  match context_Value ctx key with
  | Some (CtxString s) => Some s
  | _ => None
  end.

(** The request body as [io.ReadAll] sees it. *)
Inductive BodyReader : Type :=
| BodyBytes (data : string)
| BodyFails (e : string).

Definition io_ReadAll (b : BodyReader) : result string :=
  match b with
  | BodyBytes data => Ok data
  | BodyFails e => Err e
  end.

Record Request := {
  Method : string;
  URLPath : string;
  ReqHeader : Header.t;
  RemoteAddr : string;
  Body : BodyReader;
  Ctx : Context
}.

(** [r.WithContext(ctx)] *)
Definition WithContext (r : Request) (ctx : Context) : Request :=
  {| Method := Method r; URLPath := URLPath r; ReqHeader := ReqHeader r;
     RemoteAddr := RemoteAddr r; Body := Body r; Ctx := ctx |}.

Definition StatusOK : Z := 200.
Definition StatusAccepted : Z := 202.
Definition StatusBadRequest : Z := 400.
Definition StatusUnauthorized : Z := 401.
Definition StatusForbidden : Z := 403.
Definition StatusNotFound : Z := 404.
Definition StatusMethodNotAllowed : Z := 405.
Definition StatusInternalServerError : Z := 500.

(** The response as a recorder keeps it.  [HeaderCalls] is the sequence of
    explicit [WriteHeader] calls, which is what the logging wrapper sees. *)
Record ResponseRecorder := {
  Code : Z;
  WroteHeader : bool;
  RespHeader : Header.t;
  RespBody : string;
  HeaderCalls : list Z
}.

Definition NewRecorder : ResponseRecorder :=
  {| Code := StatusOK; WroteHeader := false; RespHeader := ∅;
     RespBody := ""; HeaderCalls := [] |}.

(** [w.WriteHeader(code)]: the first call fixes the status. *)
Definition WriteHeader (code : Z) (w : ResponseRecorder) : ResponseRecorder :=
  {| Code := if WroteHeader w then Code w else code;
     WroteHeader := true;
     RespHeader := RespHeader w;
     RespBody := RespBody w;
     HeaderCalls := HeaderCalls w ++ [code] |}.

(** [w.Write(data)]: an implicit 200 when no header was written yet. *)
Definition Write (data : string) (w : ResponseRecorder) : ResponseRecorder :=
  {| Code := if WroteHeader w then Code w else StatusOK;
     WroteHeader := true;
     RespHeader := RespHeader w;
     RespBody := RespBody w ++ data;
     HeaderCalls := HeaderCalls w |}.

Definition SetHeader (key v : string) (w : ResponseRecorder) : ResponseRecorder :=
  {| Code := Code w; WroteHeader := WroteHeader w;
     RespHeader := Header.Set_ (RespHeader w) key v;
     RespBody := RespBody w; HeaderCalls := HeaderCalls w |}.

Definition newline : string := String (Ascii.ascii_of_nat 10) EmptyString.

(** [http.Error(w, msg, code)] *)
Definition http_Error (msg : string) (code : Z) (w : ResponseRecorder) : ResponseRecorder :=
  Write (msg ++ newline)
    (WriteHeader code
       (SetHeader "X-Content-Type-Options" "nosniff"
          (SetHeader "Content-Type" "text/plain; charset=utf-8" w))).

(** ** Structured log ([zerolog]) *)

Inductive Level := DebugLevel | InfoLevel | WarnLevel | ErrorLevel.

Inductive LogField : Type :=
| FStr (key v : string)
| FInt (key : string) (v : Z)
| FDur (key : string) (nanos : Z)
| FErr (e : string).

Record LogEntry := {
  LogLevel : Level;
  LogFields : list LogField;
  LogMsg : string
}.

(** ** The publisher interface and the world a handler runs in *)

(** [publisher.Publisher]: [Publish] returns the new bus state and the
    error, [None] standing for [nil]. *)
Class Publisher (P : Type) := {
  Publish : string -> Event -> P -> P * option string;
  Close : P -> P
}.

(** Everything a request can change.  [PublishCalls] is the trace of the
    [Publish] calls made so far, whatever the publisher did with them;
    [UUIDDraws] and [ClockReads] count the calls to [uuid.New] and
    [time.Now]. *)
Record World (P : Type) := {
  Resp : ResponseRecorder;
  Bus : P;
  PublishCalls : list (string * Event);
  Logs : list LogEntry;
  UUIDDraws : nat;
  ClockReads : nat
}.
Arguments Resp {P} _.
Arguments Bus {P} _.
Arguments PublishCalls {P} _.
Arguments Logs {P} _.
Arguments UUIDDraws {P} _.
Arguments ClockReads {P} _.

(** A handler returns, or panics (an unchecked type assertion on [nil]). *)
Inductive Exit (W : Type) : Type :=
| Returned (w : W)
| Panicked (reason : string) (w : W).
Arguments Returned {W} w.
Arguments Panicked {W} reason w.

Definition final {W} (o : Exit W) : W :=
  match o with
  | Returned w => w
  | Panicked _ w => w
  end.

Definition Handler (P : Type) : Type := Request -> World P -> Exit (World P).
Definition Middleware (P : Type) : Type := Handler P -> Handler P.

Section WorldOps.
Context {P : Type}.

Definition on_Resp (f : ResponseRecorder -> ResponseRecorder) (w : World P) : World P :=
  {| Resp := f (Resp w); Bus := Bus w; PublishCalls := PublishCalls w;
     Logs := Logs w; UUIDDraws := UUIDDraws w; ClockReads := ClockReads w |}.

Definition log (lvl : Level) (fields : list LogField) (msg : string)
           (w : World P) : World P :=
  {| Resp := Resp w; Bus := Bus w; PublishCalls := PublishCalls w;
     Logs := Logs w ++ [{| LogLevel := lvl; LogFields := fields; LogMsg := msg |}];
     UUIDDraws := UUIDDraws w; ClockReads := ClockReads w |}.

Definition draw_uuid (w : World P) : World P :=
  {| Resp := Resp w; Bus := Bus w; PublishCalls := PublishCalls w;
     Logs := Logs w; UUIDDraws := S (UUIDDraws w); ClockReads := ClockReads w |}.

Definition read_clock (w : World P) : World P :=
  {| Resp := Resp w; Bus := Bus w; PublishCalls := PublishCalls w;
     Logs := Logs w; UUIDDraws := UUIDDraws w; ClockReads := S (ClockReads w) |}.

(** [h.publisher.Publish(topic, &event)] on the shared publisher. *)
Definition call_Publish `{Publisher P} (topic : string) (ev : Event)
           (w : World P) : World P * option string :=
  let '(bus', err) := Publish topic ev (Bus w) in
  ({| Resp := Resp w; Bus := bus';
      PublishCalls := PublishCalls w ++ [(topic, ev)];
      Logs := Logs w; UUIDDraws := UUIDDraws w; ClockReads := ClockReads w |},
   err).

(** [http.Error] followed by [return]. *)
Definition reject (msg : string) (code : Z) (w : World P) : Exit (World P) :=
  Returned (on_Resp (http_Error msg code) w).

End WorldOps.

(** ** [golang-jwt] tokens *)

Inductive SigningMethod : Type :=
| SigningMethodRSA (alg : string)
| SigningMethodOther (alg : string).

(** [token.Claims] is an interface; [jwt.MapClaims] is one implementation. *)
Inductive Claims : Type :=
| MapClaims (m : gmap string JSONValue)
| OtherClaims.

Record Token := {
  TokenMethod : SigningMethod;
  TokenClaims : Claims;
  Valid : bool
}.

(** What a key function may hand back: raw bytes ([[]byte]) or an
    [*rsa.PublicKey]. *)
Inductive Key : Type :=
| KeyBytes (b : string)
| KeyRSAPublic (modulus exponent : Z).

Definition Keyfunc : Type := Token -> result Key.

Definition ErrSignatureInvalid : string := "signature is invalid".

(** ** Library calls

    Code outside this repository.  [jwt_Parse] runs the given key function;
    [json_Unmarshal] decodes into the zero event; [uuid_New n] and
    [time_Now n] are the [n]-th value the process draws; [mux_route] is
    [http.ServeMux]'s choice between a registered pattern and one of its
    own replies (not found, redirect). *)
Inductive MuxMatch : Type :=
| MuxPattern (pattern : string)
| MuxReply (code : Z) (msg : string).

Class Externals := {
  jwt_Parse : string -> Keyfunc -> result Token;
  json_Unmarshal : string -> result Event;
  json_Encode : gmap string string -> string;
  uuid_New : nat -> string;
  time_Now : nat -> Z;
  time_RFC3339 : Z -> string;
  mux_route : list string -> Request -> MuxMatch
}.

(** ** Middleware ([internal/middleware]) *)

(** [Chain]: the loop runs [i] from [len(middleware) - 1] down to [0];
    [n] below is [i + 1]. *)
Fixpoint Chain_loop {A : Type} (middleware : list (A -> A)) (n : nat) (handler : A) : A :=
  match n with
  | O => handler
  | S i =>
      Chain_loop middleware i
        (match middleware !! i with
         | Some m => m handler
         | None => handler
         end)
  end.

Definition Chain {A : Type} (handler : A) (middleware : list (A -> A)) : A :=
  Chain_loop middleware (length middleware) handler.

Section Service.
Context {P : Type} `{Publisher P} `{Externals}.

(** [RequestLogger]: the wrapper starts at 200 and keeps the code of the
    last [WriteHeader] call that [next] makes through it. *)
Definition RequestLogger : Middleware P := fun next r w =>
  let start := time_Now (ClockReads w) in
  let w := read_clock w in
  let seen := length (HeaderCalls (Resp w)) in
  match next r w with
  | Panicked reason w' => Panicked reason w'
  | Returned w' =>
      let statusCode := default StatusOK (last (drop seen (HeaderCalls (Resp w')))) in
      let duration := time_Now (ClockReads w') - start in
      Returned
        (log InfoLevel
           [FStr "method" (Method r); FStr "path" (URLPath r);
            FStr "remote_addr" (RemoteAddr r); FInt "status" statusCode;
            FDur "duration_ms" duration]
           "HTTP request" (read_clock w'))
  end.

(** [TenantValidator] *)
Definition TenantValidator (jwtPublicKey : string) : Middleware P := fun next r w =>
  let tenantID := Header.Get (ReqHeader r) "X-Tenant-ID" in
  if String.eqb tenantID "" then
    reject "Missing X-Tenant-ID header" StatusBadRequest
      (log WarnLevel [] "Missing X-Tenant-ID header" w)
  else if (len tenantID <? 3) || (63 <? len tenantID) then
    reject "Invalid tenant ID format" StatusBadRequest
      (log WarnLevel [FStr "tenant_id" tenantID] "Invalid tenant ID format" w)
  else
    let ctx := context_WithValue (Ctx r) "tenant_id" (CtxString tenantID) in
    next (WithContext r ctx) w.

(** The key function handed to [jwt.Parse]. *)
Definition keyfunc (publicKey : string) : Keyfunc := fun token =>
  match TokenMethod token with
  | SigningMethodRSA _ => Ok (KeyBytes publicKey)
  | SigningMethodOther _ => Err ErrSignatureInvalid
  end.

(** [JWTAuth] *)
Definition JWTAuth (publicKey : string) : Middleware P := fun next r w =>
  let authHeader := Header.Get (ReqHeader r) "Authorization" in
  if String.eqb authHeader "" then
    reject "Missing Authorization header" StatusUnauthorized
      (log WarnLevel [] "Missing Authorization header" w)
  else if negb (HasPrefix authHeader "Bearer ") then
    reject "Invalid Authorization header format" StatusUnauthorized
      (log WarnLevel [] "Invalid Authorization header format" w)
  else
    let tokenString := TrimPrefix authHeader "Bearer " in
    if String.eqb publicKey "" then
      next r (log WarnLevel [] "JWT validation disabled (no public key configured)" w)
    else
      match jwt_Parse tokenString (keyfunc publicKey) with
      | Err e =>
          reject "Invalid token" StatusUnauthorized
            (log WarnLevel [FErr e] "Invalid JWT token" w)
      | Ok token =>
          if negb (Valid token) then
            reject "Invalid token" StatusUnauthorized
              (log WarnLevel [] "Token not valid" w)
          else
            match TokenClaims token with
            | OtherClaims =>
                reject "Invalid token claims" StatusUnauthorized
                  (log WarnLevel [] "Invalid token claims" w)
            | MapClaims claims =>
                match claims !! "tenant_id" with
                | Some (JString jwtTenantID) =>
                    match context_Value (Ctx r) "tenant_id" with
                    | Some (CtxString headerTenantID) =>
                        if negb (String.eqb jwtTenantID headerTenantID) then
                          reject "Tenant ID mismatch" StatusForbidden
                            (log WarnLevel
                               [FStr "jwt_tenant_id" jwtTenantID;
                                FStr "header_tenant_id" headerTenantID]
                               "Tenant ID mismatch" w)
                        else
                          let r' :=
                            match claims !! "sub" with
                            | Some (JString userID) =>
                                WithContext r
                                  (context_WithValue (Ctx r) "user_id" (CtxString userID))
                            | _ => r
                            end in
                          next r' w
                    | _ =>
                        Panicked "interface conversion: interface {} is not string" w
                    end
                | _ =>
                    reject "Missing tenant_id in token" StatusUnauthorized
                      (log WarnLevel [] "Missing tenant_id in JWT claims" w)
                end
            end
      end.

(** ** The ingest handler ([internal/handlers]) *)

(** The topic of a tenant. *)
Definition topic_of (tenantID : string) : string := "raw.events." ++ tenantID.

(** The enrichment block: the four assignments, in source order, with
    the identifier and the clock reading drawn from the world. *)
Definition enrich (tenantID : string) (r : Request) (w : World P) (event : Event) : Event :=
  set_SourceHost (RemoteAddr r)
    (set_Timestamp (time_RFC3339 (time_Now (ClockReads w)))
       (set_EventID (uuid_New (UUIDDraws w))
          (set_TenantID tenantID event))).

Definition accepted_body (eventID : string) : gmap string string :=
  <["status" := "accepted"]> (<["event_id" := eventID]> ∅).

(** [IngestEvents]; the handler's [publisher] field is the world's [Bus]. *)
Definition IngestEvents : Handler P := fun r w =>
  if negb (String.eqb (Method r) "POST") then
    reject "Method not allowed" StatusMethodNotAllowed w
  else
    match context_String (Ctx r) "tenant_id" with
    | None =>
        reject "Unauthorized" StatusUnauthorized
          (log ErrorLevel [] "Tenant ID not found in context" w)
    | Some tenantID =>
        if String.eqb tenantID "" then
          reject "Unauthorized" StatusUnauthorized
            (log ErrorLevel [] "Tenant ID not found in context" w)
        else
          match io_ReadAll (Body r) with
          | Err e =>
              reject "Bad request" StatusBadRequest
                (log ErrorLevel [FErr e] "Failed to read request body" w)
          | Ok body =>
              match json_Unmarshal body with
              | Err e =>
                  reject "Invalid JSON" StatusBadRequest
                    (log ErrorLevel [FErr e] "Failed to parse event" w)
              | Ok event =>
                  if String.eqb (Category event) "" then
                    reject "Missing required field: category" StatusBadRequest w
                  else
                    let event := enrich tenantID r w event in
                    let w := read_clock (draw_uuid w) in
                    let topic := topic_of tenantID in
                    let '(w, err) := call_Publish topic event w in
                    match err with
                    | Some e =>
                        reject "Internal server error" StatusInternalServerError
                          (log ErrorLevel
                             [FErr e; FStr "tenant_id" tenantID; FStr "topic" topic]
                             "Failed to publish event" w)
                    | None =>
                        let w :=
                          log InfoLevel
                            [FStr "tenant_id" tenantID;
                             FStr "event_id" (EventID event);
                             FStr "category" (Category event);
                             FInt "severity" (Severity event)]
                            "Event ingested" w in
                        Returned
                          (on_Resp
                             (fun rw =>
                                Write (json_Encode (accepted_body (EventID event)))
                                  (WriteHeader StatusAccepted
                                     (SetHeader "Content-Type" "application/json" rw)))
                             w)
                    end
              end
          end
    end.

(** ** Routing and the chain built in [main] *)

Definition ServeMux : Type := list (string * Handler P).

Fixpoint mux_lookup (mux : ServeMux) (pattern : string) : option (Handler P) :=
  match mux with
  | [] => None
  | (p, h) :: rest => if String.eqb p pattern then Some h else mux_lookup rest pattern
  end.

(** [ServeMux.ServeHTTP]: the handler of the matched pattern, or the
    multiplexer's own reply. *)
Definition ServeMux_ServeHTTP (mux : ServeMux) : Handler P := fun r w =>
  match mux_route (map fst mux) r with
  | MuxPattern pattern =>
      match mux_lookup mux pattern with
      | Some h => h r w
      | None => reject "404 page not found" StatusNotFound w
      end
  | MuxReply code msg => reject msg code w
  end.

Definition authMux : Handler P :=
  ServeMux_ServeHTTP [("/v1/ingest/events", IngestEvents)].

(** [chain] of [main], for the configured [cfg.JWTPublicKey]. *)
Definition ingest_chain (JWTPublicKey : string) : Handler P :=
  Chain authMux
    [RequestLogger; TenantValidator JWTPublicKey; JWTAuth JWTPublicKey].

End Service.

(** ** The mock publisher ([internal/publisher/mock.go]) *)

Record MockPublisher := {
  published : gmap string (list Event)
}.

Definition NewMockPublisher : MockPublisher := {| published := ∅ |}.

(** [m.published[topic]]: a missing key reads as the nil slice. *)
Definition GetPublished (m : MockPublisher) (topic : string) : list Event :=
  default [] (published m !! topic).

Definition Mock_Publish (topic : string) (event : Event) (m : MockPublisher)
  : MockPublisher * option string :=
  ({| published := <[topic := (GetPublished m topic ++ [event])%list]> (published m) |}, None).

Definition Mock_Close (m : MockPublisher) : MockPublisher := m.

#[global] Instance MockPublisher_Publisher : Publisher MockPublisher :=
  {| Publish := Mock_Publish; Close := Mock_Close |}.

(** Publishing a sequence of (topic, event) pairs, first to last. *)
Definition publish_all (calls : list (string * Event)) (m : MockPublisher) : MockPublisher :=
  fold_left (fun m c => fst (Mock_Publish (fst c) (snd c) m)) calls m.

(** The events of a call sequence that went to [topic], in call order. *)
Definition sent_to (topic : string) (calls : list (string * Event)) : list Event :=
  map snd (filter (fun c => fst c = topic) calls).

(** ** Serving one request *)

(** The server hands every request a response writer of its own. *)
Definition fresh {P : Type} (w : World P) : World P :=
  on_Resp (fun _ => NewRecorder) w.

Definition serve {P : Type} (h : Handler P) (r : Request) (w : World P) : Exit (World P) :=
  h r (fresh w).

(** A world with nothing published, logged or drawn yet. *)
Definition initial_world {P : Type} (bus : P) : World P :=
  {| Resp := NewRecorder; Bus := bus; PublishCalls := []; Logs := [];
     UUIDDraws := O; ClockReads := O |}.

(** The two ways a middleware ends: it answers on its own, with the same
    result whatever handler it wraps, or it hands over to that handler. *)
Definition answers {P : Type} (m : Middleware P) (r : Request) (w : World P)
           (code : Z) : Prop :=
  exists w',
    (forall next, serve (m next) r w = Returned w') /\
    Code (Resp w') = code /\
    Bus w' = Bus w /\
    PublishCalls w' = PublishCalls w.

Definition hands_over {P : Type} (m : Middleware P) (r : Request) (w : World P)
           (r' : Request) (w' : World P) : Prop :=
  forall next, serve (m next) r w = next r' w'.

(** ** Reading a request and a run *)

(** The value of the [X-Tenant-ID] header ([""] when it is absent). *)
Definition tenant_header (r : Request) : string :=
  Header.Get (ReqHeader r) "X-Tenant-ID".

(** The request [TenantValidator] passes on: the header value stored in the
    context under ["tenant_id"]. *)
Definition with_tenant (r : Request) : Request :=
  WithContext r (context_WithValue (Ctx r) "tenant_id" (CtxString (tenant_header r))).

(** The bearer token of a request, when its [Authorization] header is
    there and starts with ["Bearer "]. *)
Definition bearer_token (r : Request) : option string :=
  let authHeader := Header.Get (ReqHeader r) "Authorization" in
  if String.eqb authHeader "" then None
  else if HasPrefix authHeader "Bearer " then Some (TrimPrefix authHeader "Bearer ")
  else None.

(** The tenant resolver: header validation, then token validation. *)
Definition resolver {P : Type} `{Publisher P} `{Externals} (key : string) : Middleware P :=
  fun next => TenantValidator key (JWTAuth key next).

(** The request's bearer token parses as valid under [key] and carries the
    string [c] as its [tenant_id] claim. *)
Definition presents_claim `{Externals} (key : string) (r : Request) (c : string) : Prop :=
  exists tokenString token claims,
    bearer_token r = Some tokenString /\
    jwt_Parse tokenString (keyfunc key) = Ok token /\
    Valid token = true /\
    TokenClaims token = MapClaims claims /\
    claims !! "tenant_id" = Some (JString c).

(** The token is missing (no [Authorization] header, or not a bearer one)
    or invalid (the parser refuses it, or reports it as not valid). *)
Definition no_valid_token `{Externals} (key : string) (r : Request) : Prop :=
  bearer_token r = None \/
  exists tokenString,
    bearer_token r = Some tokenString /\
    ((exists e, jwt_Parse tokenString (keyfunc key) = Err e) \/
     (exists token, jwt_Parse tokenString (keyfunc key) = Ok token /\ Valid token = false)).

(** A request the handler takes as far as the category check: a POST in
    tenant scope [t] whose body decodes to [event]. *)
Definition decodes `{Externals} (r : Request) (t : string) (event : Event) : Prop :=
  Method r = "POST" /\
  context_String (Ctx r) "tenant_id" = Some t /\
  t <> "" /\
  exists body, Body r = BodyBytes body /\ json_Unmarshal body = Ok event.

(** The bus is as it was: same publisher state, no new [Publish] call. *)
Definition unchanged {P : Type} (w w' : World P) : Prop :=
  Bus w' = Bus w /\ PublishCalls w' = PublishCalls w.

(** Exactly one [Publish] call was added, on the topic of tenant [t], for
    an event of that tenant, and the reply is 202 or 500. *)
Definition published_once {P : Type} (t : string) (w w' : World P) : Prop :=
  exists ev,
    PublishCalls w' = (PublishCalls w ++ [(topic_of t, ev)])%list /\
    TenantID ev = t /\
    (Code (Resp w') = StatusAccepted \/ Code (Resp w') = StatusInternalServerError).

(** What a run may have done to the bus: nothing, or one publication for a
    tenant scope that passed the checks [passed]. *)
Definition effect {P : Type} (passed : string -> Prop) (w : World P)
           (o : Exit (World P)) : Prop :=
  unchanged w (final o) \/
  exists t, passed t /\ published_once t w (final o).

(** The checks, as each layer sees them.  [ingest_ready]: the handler's
    own (method, scope, body, category); [authenticated]: those of
    [JWTAuth]; [admitted]: all of them, on the request as it arrives. *)
Definition ingest_ready `{Externals} (r : Request) (t : string) : Prop :=
  exists event, decodes r t event /\ Category event <> "".

Definition authenticated `{Externals} (key : string) (r : Request) : Prop :=
  bearer_token r <> None /\
  (key = "" \/
   exists h, context_String (Ctx r) "tenant_id" = Some h /\ presents_claim key r h).

Definition admitted `{Externals} (key : string) (r : Request) (t : string) : Prop :=
  t = tenant_header r /\
  3 <= len t <= 63 /\
  bearer_token r <> None /\
  (key = "" \/ presents_claim key r t) /\
  Method r = "POST" /\
  exists body event,
    Body r = BodyBytes body /\ json_Unmarshal body = Ok event /\ Category event <> "".

(** Two requests that differ at most in context entries other than the
    tenant scope. *)
Definition same_request (r r' : Request) : Prop :=
  Method r' = Method r /\ Body r' = Body r /\ ReqHeader r' = ReqHeader r /\
  context_String (Ctx r') "tenant_id" = context_String (Ctx r) "tenant_id".

(** The three ways a middleware call ends. *)
Inductive middleware_exit {P : Type} (m : Middleware P) (next : Handler P)
          (r : Request) (w : World P) (allowed : Request -> Prop) : Prop :=
| exit_reject (msg : string) (code : Z) (w1 : World P) :
    m next r w = reject msg code w1 ->
    Resp w1 = Resp w -> unchanged w w1 ->
    middleware_exit m next r w allowed
| exit_panic (reason : string) :
    m next r w = Panicked reason w ->
    middleware_exit m next r w allowed
| exit_next (r' : Request) (w1 : World P) :
    m next r w = next r' w1 ->
    Resp w1 = Resp w -> unchanged w w1 -> allowed r' ->
    middleware_exit m next r w allowed.

(** The reasons for which the service turns a request down. *)
Inductive rejection_cause `{Externals} (key : string) (r : Request) : Prop :=
| tenant_header_missing_or_malformed :
    len (tenant_header r) < 3 \/ 63 < len (tenant_header r) ->
    rejection_cause key r
| authorization_missing :
    bearer_token r = None -> rejection_cause key r
| authorization_invalid :
    key <> "" -> no_valid_token key r -> rejection_cause key r
| tenant_claim_missing :
    key <> "" -> (forall c, ~ presents_claim key r c) -> rejection_cause key r
| tenant_claim_disagrees (c : string) :
    key <> "" -> presents_claim key r c -> c <> tenant_header r ->
    rejection_cause key r
| wrong_method :
    Method r <> "POST" -> rejection_cause key r
| body_unreadable (e : string) :
    Body r = BodyFails e -> rejection_cause key r
| body_invalid_json (body e : string) :
    Body r = BodyBytes body -> json_Unmarshal body = Err e -> rejection_cause key r
| category_missing (body : string) (event : Event) :
    Body r = BodyBytes body -> json_Unmarshal body = Ok event -> Category event = "" ->
    rejection_cause key r.

(** The enumeration the specification gives for [category]. *)
Definition category_enum : list string :=
  ["auth"; "endpoint"; "network"; "cloud"; "k8s"; "storage"; "ops"].

Definition in_category_enum (c : string) : bool :=
  existsb (String.eqb c) category_enum.

(** ** The windowed state store *)

Module StateStore.

(** Modelled from the spec: the Windowed State Store of the detection side
    (the detect-service's [state.py] is not among the sources; only its
    interface is declared in the planning notes).  An entry is keyed by
    (tenant_id, key) and holds the ordered observations; [increment]
    records one observation at the current time, discards the observations
    that left the window and returns the count including the new one;
    [get] prunes in the same way and adds nothing.  An observation counts
    until exactly [window_seconds] after it was recorded: at time [now] the
    ones with [now < at + window_seconds] remain. *)
Record Observation := {
  at_time : Z;
  amount : Z
}.

Abbreviation Store := (gmap (string * string) (list Observation)).

Definition entry (s : Store) (tenant_id key : string) : list Observation :=
  default [] (s !! (tenant_id, key)).

Definition in_window (now window_seconds : Z) (o : Observation) : bool :=
  now <? at_time o + window_seconds.

Definition prune (now window_seconds : Z) (obs : list Observation) : list Observation :=
  List.filter (in_window now window_seconds) obs.

Definition count (obs : list Observation) : Z := Z.of_nat (length obs).

(** The observation [increment] records at time [t]. *)
Definition observed (t : Z) : Observation := {| at_time := t; amount := 1 |}.

Definition increment (s : Store) (tenant_id key : string) (window_seconds now : Z)
  : Store * Z :=
  let obs := (prune now window_seconds (entry s tenant_id key)
                ++ [observed now])%list in
  (<[(tenant_id, key) := obs]> s, count obs).

Definition get (s : Store) (tenant_id key : string) (window_seconds now : Z)
  : Store * Z :=
  let obs := prune now window_seconds (entry s tenant_id key) in
  (<[(tenant_id, key) := obs]> s, count obs).

(** A call on the store, with the clock reading it is made at. *)
Inductive Op : Type :=
| Increment (tenant_id key : string) (now : Z)
| Get (tenant_id key : string) (now : Z).

Definition op_time (op : Op) : Z :=
  match op with
  | Increment _ _ now => now
  | Get _ _ now => now
  end.

Definition step (window_seconds : Z) (s : Store) (op : Op) : Store :=
  match op with
  | Increment t k now => fst (increment s t k window_seconds now)
  | Get t k now => fst (get s t k window_seconds now)
  end.

Definition run (window_seconds : Z) (ops : list Op) (s : Store) : Store :=
  fold_left (step window_seconds) ops s.

(** The times at which (tenant_id, key) was incremented, in call order. *)
Fixpoint recorded (tenant_id key : string) (ops : list Op) : list Z :=
  match ops with
  | [] => []
  | Increment t k now :: rest =>
      if String.eqb t tenant_id && String.eqb k key
      then now :: recorded tenant_id key rest
      else recorded tenant_id key rest
  | Get _ _ _ :: rest => recorded tenant_id key rest
  end.

(** The clock never runs backwards: calls are made at non-decreasing
    times, from [from] on. *)
Fixpoint chronological (from : Z) (ops : list Op) : Prop :=
  match ops with
  | [] => True
  | op :: rest => from <= op_time op /\ chronological (op_time op) rest
  end.

Fixpoint last_time (from : Z) (ops : list Op) : Z :=
  match ops with
  | [] => from
  | op :: rest => last_time (op_time op) rest
  end.

(** How many of the times [ts] have the query time [q] in [[t, t + W)]. *)
Definition contributing (window_seconds q : Z) (ts : list Z) : Z :=
  Z.of_nat (length (List.filter
                      (fun t => (t <=? q) && (q <? t + window_seconds)) ts)).

End StateStore.

(** ** A concrete environment for the examples

    Stand-ins for the library calls at the inputs the examples use: a
    table of RS256 bearer tokens, which the parser verifies only with an
    RSA public key, a table of request bodies with the events they decode
    to, a fixed clock and a short list of identifiers. *)

Module Demo.

Definition claims_of (tenant_id sub : string) : gmap string JSONValue :=
  <["tenant_id" := JString tenant_id]> (<["sub" := JString sub]> ∅).

Definition tokens : list (string * Token) :=
  [ ("token.of.acme-corp",
     {| TokenMethod := SigningMethodRSA "RS256";
        TokenClaims := MapClaims (claims_of "acme-corp" "alice");
        Valid := true |});
    ("token.of.other-corp",
     {| TokenMethod := SigningMethodRSA "RS256";
        TokenClaims := MapClaims (claims_of "other-corp" "mallory");
        Valid := true |}) ].

Fixpoint assoc {A : Type} (l : list (string * A)) (k : string) : option A :=
  match l with
  | [] => None
  | (k', v) :: rest => if String.eqb k' k then Some v else assoc rest k
  end.

(** The parser looks the token up, asks the key function for the key and
    verifies with it: the signature of a listed token is good under any
    RSA public key, and, as in the library, an RSA method refuses a key
    that is not one. *)
Definition parse (tokenString : string) (kf : Keyfunc) : result Token :=
  match assoc tokens tokenString with
  | None => Err "token is malformed"
  | Some token =>
      match kf token with
      | Err e => Err e
      | Ok (KeyRSAPublic _ _) => Ok token
      | Ok (KeyBytes _) =>
          match TokenMethod token with
          | SigningMethodRSA _ => Err "token is unverifiable: key is of invalid type"
          | SigningMethodOther _ => Ok token
          end
      end
  end.

Definition member (k v : string) : string := quoted k ++ ":" ++ quoted v.

(** [{"category":"auth"}] *)
Definition body_auth : string := "{" ++ member "category" "auth" ++ "}".

(** [{"category":"bogus"}] *)
Definition body_bogus : string := "{" ++ member "category" "bogus" ++ "}".

(** [{"category":"auth","event_id":"caller-id","tenant_id":"other-corp"}] *)
Definition body_forged : string :=
  "{" ++ member "category" "auth" ++ "," ++ member "event_id" "caller-id"
      ++ "," ++ member "tenant_id" "other-corp" ++ "}".

(** [{"severity":5}] *)
Definition body_no_category : string := "{" ++ quoted "severity" ++ ":5}".

Definition with_Category (c : string) (e : Event) : Event :=
  {| TenantID := TenantID e; EventID := EventID e; Timestamp := Timestamp e;
     EventSource := EventSource e; Category := c;
     Severity := Severity e; EventActor := EventActor e;
     EventTarget := EventTarget e; Action := Action e; Outcome := Outcome e;
     Attributes := Attributes e; RawRef := RawRef e; Tags := Tags e |}.

Definition with_Severity (n : Z) (e : Event) : Event :=
  {| TenantID := TenantID e; EventID := EventID e; Timestamp := Timestamp e;
     EventSource := EventSource e; Category := Category e;
     Severity := n; EventActor := EventActor e;
     EventTarget := EventTarget e; Action := Action e; Outcome := Outcome e;
     Attributes := Attributes e; RawRef := RawRef e; Tags := Tags e |}.

Definition bodies : list (string * Event) :=
  [ (body_auth, with_Category "auth" zero_Event);
    (body_bogus, with_Category "bogus" zero_Event);
    (body_forged,
     set_TenantID "other-corp"
       (set_EventID "caller-id" (with_Category "auth" zero_Event)));
    (body_no_category, with_Severity 5 zero_Event) ].

Definition unmarshal (body : string) : result Event :=
  match assoc bodies body with
  | Some e => Ok e
  | None => Err "invalid character"
  end.

Definition uuids : list string :=
  [ "123e4567-e89b-42d3-a456-426614174000";
    "123e4567-e89b-42d3-a456-426614174001";
    "123e4567-e89b-42d3-a456-426614174002" ].

Definition uuid (n : nat) : string :=
  nth n uuids "ffffffff-ffff-4fff-bfff-ffffffffffff".

(** The encoder at the maps the handler writes. *)
Definition encode (m : gmap string string) : string :=
  match m !! "event_id", m !! "status" with
  | Some id, Some st =>
      "{" ++ member "event_id" id ++ "," ++ member "status" st ++ "}" ++ newline
  | _, _ => "{}" ++ newline
  end.

(** Exact patterns only, as the service registers them. *)
Definition route (patterns : list string) (r : Request) : MuxMatch :=
  if existsb (String.eqb (URLPath r)) patterns
  then MuxPattern (URLPath r)
  else MuxReply StatusNotFound "404 page not found".

#[global] Instance externals : Externals :=
  {| jwt_Parse := parse;
     json_Unmarshal := unmarshal;
     json_Encode := encode;
     uuid_New := uuid;
     time_Now := fun n => 1700000000000000000 + Z.of_nat n;
     time_RFC3339 := fun _ => "2023-11-14T22:13:20Z";
     mux_route := route |}.

(** A POST to the ingest endpoint. *)
Definition post (tenant_header authorization body : string) : Request :=
  {| Method := "POST";
     URLPath := "/v1/ingest/events";
     ReqHeader :=
       Header.Set_ (Header.Set_ ∅ "Authorization" authorization)
                   "X-Tenant-ID" tenant_header;
     RemoteAddr := "203.0.113.42:51234";
     Body := BodyBytes body;
     Ctx := [] |}.

(** A request that carries only a tenant header (as the middleware test
    builds them). *)
Definition bare (tenant_header : string) : Request :=
  {| Method := "GET";
     URLPath := "/test";
     ReqHeader := Header.Set_ ∅ "X-Tenant-ID" tenant_header;
     RemoteAddr := "192.0.2.1:1234";
     Body := BodyBytes "";
     Ctx := [] |}.

(** A request without any header. *)
Definition anonymous : Request :=
  {| Method := "GET";
     URLPath := "/test";
     ReqHeader := ∅;
     RemoteAddr := "192.0.2.1:1234";
     Body := BodyBytes "";
     Ctx := [] |}.

Definition world0 : World MockPublisher := initial_world NewMockPublisher.

(** A probe handler: it leaves its request's context in the log. *)
Definition probe : Handler MockPublisher := fun r w =>
  Returned
    (log DebugLevel
       (match context_String (Ctx r) "tenant_id" with
        | Some t => [FStr "tenant_id" t]
        | None => []
        end)
       "inner handler reached" w).

Definition reached (o : Exit (World MockPublisher)) : bool :=
  existsb (fun e => String.eqb (LogMsg e) "inner handler reached") (Logs (final o)).

End Demo.

(** ** Configuration ([internal/config]) *)

Module config.

(** The process environment; [os.Getenv] reads an unset variable as [""]. *)
Abbreviation Environ := (gmap string string).

Definition os_Getenv (env : Environ) (key : string) : string :=
  default "" (env !! key).

Record Config := {
  Port : string;
  NATSURL : string;
  JWTPublicKey : string;
  LogLevel : string
}.

Definition getEnv (env : Environ) (key defaultValue : string) : string :=
  let value := os_Getenv env key in
  if negb (String.eqb value "") then value else defaultValue.

Definition Load (env : Environ) : Config :=
  {| Port := getEnv env "PORT" "8080";
     NATSURL := getEnv env "NATS_URL" "nats://nats:4222";
     JWTPublicKey := getEnv env "JWT_PUBLIC_KEY" "";
     LogLevel := getEnv env "LOG_LEVEL" "info" |}.

(** The variables [Load] reads. *)
Definition variables : list string :=
  ["PORT"; "NATS_URL"; "JWT_PUBLIC_KEY"; "LOG_LEVEL"].

End config.

(** ** Health endpoints and the server's multiplexer *)

Section Server.
Context {P : Type} `{Publisher P} `{Externals}.

Definition status_body (status : string) : gmap string string :=
  <["status" := status]> ∅.

(** [HealthHandler] *)
Definition HealthHandler : Handler P := fun r w =>
  Returned
    (on_Resp
       (fun rw =>
          Write (json_Encode (status_body "healthy"))
            (WriteHeader StatusOK (SetHeader "Content-Type" "application/json" rw)))
       w).

(** [ReadyHandler] *)
Definition ReadyHandler : Handler P := fun r w =>
  Returned
    (on_Resp
       (fun rw =>
          Write (json_Encode (status_body "ready"))
            (WriteHeader StatusOK (SetHeader "Content-Type" "application/json" rw)))
       w).

(** [MetricsHandler] *)
Definition MetricsHandler : Handler P := fun r w =>
  Returned
    (on_Resp
       (fun rw =>
          Write ("# No metrics yet" ++ newline)
            (WriteHeader StatusOK (SetHeader "Content-Type" "text/plain" rw)))
       w).

(** [mux] of [main]: the three probes, registered without middleware, and
    the chain under ["/v1/"]. *)
Definition server_mux (JWTPublicKey : string) : Handler P :=
  ServeMux_ServeHTTP
    [("/health", HealthHandler);
     ("/ready", ReadyHandler);
     ("/metrics", MetricsHandler);
     ("/v1/", ingest_chain JWTPublicKey)].

(** The handler [main] serves, for the environment the process starts in. *)
Definition main_handler (env : config.Environ) : Handler P :=
  server_mux (config.JWTPublicKey (config.Load env)).

(** Serving requests one after the other. *)
Definition serve_all (h : Handler P) (rs : list Request) (w : World P) : World P :=
  fold_left (fun w r => final (serve h r w)) rs w.

(** The multiplexer sends the request to the ingest handler, whatever the
    middleware stored in its context. *)
Definition routes_to_ingest (r : Request) : Prop :=
  forall r',
    Method r' = Method r -> URLPath r' = URLPath r -> ReqHeader r' = ReqHeader r ->
    mux_route ["/v1/ingest/events"] r' = MuxPattern "/v1/ingest/events".

(** A middleware step that only logged: response, bus and counters are
    as they were. *)
Definition quiet (w w1 : World P) : Prop :=
  Resp w1 = Resp w /\ Bus w1 = Bus w /\ PublishCalls w1 = PublishCalls w /\
  UUIDDraws w1 = UUIDDraws w /\ ClockReads w1 = ClockReads w.

(** The status was set by exactly one [WriteHeader] call. *)
Definition wrote_once (rw : ResponseRecorder) : Prop :=
  HeaderCalls rw = [Code rw].

(** The two results of a run that returns: turned down, or published for
    tenant [t] with the identifier of the next draw. *)
Definition turned_down (w w' : World P) : Prop :=
  Bus w' = Bus w /\ PublishCalls w' = PublishCalls w /\
  UUIDDraws w' = UUIDDraws w /\ wrote_once (Resp w').

Definition went_out (t : string) (w w' : World P) : Prop :=
  exists ev,
    TenantID ev = t /\
    EventID ev = uuid_New (UUIDDraws w) /\
    Bus w' = fst (Publish (topic_of t) ev (Bus w)) /\
    PublishCalls w' = (PublishCalls w ++ [(topic_of t, ev)])%list /\
    UUIDDraws w' = S (UUIDDraws w) /\
    wrote_once (Resp w') /\
    Code (Resp w') = match snd (Publish (topic_of t) ev (Bus w)) with
                     | None => StatusAccepted
                     | Some _ => StatusInternalServerError
                     end.

Definition handled (scope : string -> Prop) (w : World P) (o : Exit (World P)) : Prop :=
  exists w', o = Returned w' /\
             (turned_down w w' \/ exists t, scope t /\ went_out t w w').

(** The entry [RequestLogger] writes for request [r]. *)
Definition request_entry (r : Request) (status duration : Z) : LogEntry :=
  {| LogLevel := InfoLevel;
     LogFields := [FStr "method" (Method r); FStr "path" (URLPath r);
                   FStr "remote_addr" (RemoteAddr r); FInt "status" status;
                   FDur "duration_ms" duration];
     LogMsg := "HTTP request" |}.

End Server.

(** The request's bearer token parses as valid under [key], with the
    claim set [claims]. *)
Definition verified_claims `{Externals} (key : string) (r : Request)
           (claims : gmap string JSONValue) : Prop :=
  exists tokenString token,
    bearer_token r = Some tokenString /\
    jwt_Parse tokenString (keyfunc key) = Ok token /\
    Valid token = true /\
    TokenClaims token = MapClaims claims.

(** The key types a signing method verifies with: an RSA method takes an
    [*rsa.PublicKey] and refuses anything else. *)
Definition key_fits (m : SigningMethod) (k : Key) : Prop :=
  match m, k with
  | SigningMethodRSA _, KeyRSAPublic _ _ => True
  | SigningMethodRSA _, KeyBytes _ => False
  | SigningMethodOther _, _ => True
  end.

(** How [jwt.Parse] uses the key function: it returns a token without
    error only after the key function gave a key for that token and the
    token's signing method verified the signature with it, which takes a
    key of the method's type. *)
Definition parse_verifies_with_key `{Externals} : Prop :=
  forall (tokenString : string) (kf : Keyfunc) (token : Token),
    jwt_Parse tokenString kf = Ok token ->
    exists unverified key,
      TokenMethod unverified = TokenMethod token /\
      kf unverified = Ok key /\
      key_fits (TokenMethod token) key.

(** The request [JWTAuth] passes on for a token with claim set [claims]. *)
Definition with_subject (r : Request) (claims : gmap string JSONValue) : Request :=
  match claims !! "sub" with
  | Some (JString userID) =>
      WithContext r (context_WithValue (Ctx r) "user_id" (CtxString userID))
  | _ => r
  end.

(** ** The NATS publisher ([internal/publisher]) *)

(** The calls into [nats.go] and [encoding/json]: [js_Publish] is
    [JetStreamContext.Publish] on the stream state, [conn_Close] is
    [Conn.Close]. *)
Class NATSLib (C J : Type) := {
  json_Marshal : Event -> result string;
  js_Publish : string -> string -> J -> J * option string;
  conn_Close : C -> C
}.

(** [NATSPublisher]; [conn] may be [nil].  [emitted] holds the entries the
    publisher sends to the logger, in order. *)
Record NATSPublisher (C J : Type) := {
  conn : option C;
  js : J;
  emitted : list LogEntry
}.
Arguments conn {C J} _.
Arguments js {C J} _.
Arguments emitted {C J} _.

Section NATS.
Context {C J : Type} `{NATSLib C J}.

Definition NATS_Publish (topic : string) (event : Event) (p : NATSPublisher C J)
  : NATSPublisher C J * option string :=
  match json_Marshal event with
  | Err e => (p, Some e)
  | Ok data =>
      let '(js', err) := js_Publish topic data (js p) in
      match err with
      | Some e => ({| conn := conn p; js := js'; emitted := emitted p |}, Some e)
      | None =>
          ({| conn := conn p; js := js';
              emitted :=
                (emitted p ++
                 [{| LogLevel := DebugLevel;
                     LogFields := [FStr "topic" topic;
                                   FStr "event_id" (EventID event);
                                   FInt "size_bytes" (len data)];
                     LogMsg := "Event published to NATS" |}])%list |},
           None)
      end
  end.

Definition NATS_Close (p : NATSPublisher C J) : NATSPublisher C J :=
  match conn p with
  | Some c =>
      {| conn := Some (conn_Close c); js := js p;
         emitted :=
           (emitted p ++
            [{| LogLevel := InfoLevel; LogFields := [];
                LogMsg := "NATS connection closed" |}])%list |}
  | None => p
  end.

#[global] Instance NATSPublisher_Publisher : Publisher (NATSPublisher C J) :=
  {| Publish := NATS_Publish; Close := NATS_Close |}.

End NATS.

(** ** More of the example environment *)

Module Demo2.

(** A stream that keeps what it was sent and refuses the topic
    ["raw.events.full-tenant"]; a serializer that writes the event's
    identifier and category and refuses the category ["unserializable"]. *)
Definition stream_publish (topic data : string) (sent : list (string * string))
  : list (string * string) * option string :=
  if String.eqb topic "raw.events.full-tenant"
  then (sent, Some "nats: maximum bytes exceeded")
  else ((sent ++ [(topic, data)])%list, None).

Definition marshal (e : Event) : result string :=
  if String.eqb (Category e) "unserializable"
  then Err "json: unsupported value"
  else Ok ("{" ++ Demo.member "event_id" (EventID e) ++ ","
               ++ Demo.member "category" (Category e) ++ "}").

#[global] Instance lib : NATSLib unit (list (string * string)) :=
  {| json_Marshal := marshal;
     js_Publish := stream_publish;
     conn_Close := fun c => c |}.

Definition nats0 : NATSPublisher unit (list (string * string)) :=
  {| conn := Some tt; js := []; emitted := [] |}.

Definition world0 : World (NATSPublisher unit (list (string * string))) :=
  initial_world nats0.

End Demo2.

(** * Properties *)

Open Scope list_scope.

(** ** Headers *)

Example canonical_tenant_key : Header.CanonicalKey "X-Tenant-ID" = "X-Tenant-Id".
Proof. reflexivity. Qed.

Example header_get_set :
  Header.Get (Header.Set_ ∅ "x-tenant-id" "acme-corp") "X-Tenant-ID" = "acme-corp".
Proof. vm_compute. reflexivity. Qed.

Lemma Header_Get_absent (h : Header.t) (key : string) :
  h !! Header.CanonicalKey key = None -> Header.Get h key = "".
Proof. unfold Header.Get. intros ->. reflexivity. Qed.

(** ** Middleware composition *)

Lemma Chain_loop_take {A : Type} (middleware : list (A -> A)) (n : nat) (handler : A) :
  Chain_loop middleware n handler
  = foldr (fun m next => m next) handler (take n middleware).
Proof.
  revert handler. induction n as [|i IH]; intros handler.
  - rewrite take_0. reflexivity.
  - cbn [Chain_loop]. rewrite IH.
    destruct (middleware !! i) as [m|] eqn:Hi.
    + rewrite (take_S_r _ _ _ Hi), foldr_app. reflexivity.
    + apply lookup_ge_None in Hi.
      rewrite !take_ge by lia. reflexivity.
Qed.

(** C9: [Chain] makes the first-listed middleware the outermost one,
    [Chain h [m1; ...; mn] = m1 (m2 (... (mn h)))], so the chain of [main]
    is the request logger around the tenant validator around JWT
    authentication around the wrapped multiplexer. *)
Theorem Chain_first_listed_outermost :
  (forall (A : Type) (handler : A) (middleware : list (A -> A)),
      Chain handler middleware = foldr (fun m next => m next) handler middleware)
  /\ (forall (A : Type) (handler : A) (m1 m2 m3 : A -> A),
         Chain handler [m1; m2; m3] = m1 (m2 (m3 handler)))
  /\ (forall (P : Type) (pub : Publisher P) (ext : Externals) (key : string),
         ingest_chain (P := P) key
         = RequestLogger (TenantValidator key (JWTAuth key authMux))).
Proof.
  split; [|split].
  - intros A handler middleware. unfold Chain.
    rewrite Chain_loop_take, take_ge by lia. reflexivity.
  - reflexivity.
  - reflexivity.
Qed.

(** The order at work: a request with neither header is answered by the
    tenant validator (400, not the 401 of the token check), and the
    logger, outermost, records that status last. *)
Example chain_runs_logger_validator_auth :
  map (fun e => (LogLevel e, LogMsg e))
      (Logs (final (serve (ingest_chain "configured-key") Demo.anonymous Demo.world0)))
  = [(WarnLevel, "Missing X-Tenant-ID header"); (InfoLevel, "HTTP request")]
  /\ Code (Resp (final (serve (ingest_chain "configured-key") Demo.anonymous Demo.world0)))
     = StatusBadRequest.
Proof. vm_compute. split; reflexivity. Qed.

(** ** The mock publisher *)

Lemma GetPublished_publish_same (topic : string) (event : Event) (m : MockPublisher) :
  GetPublished (fst (Mock_Publish topic event m)) topic
  = GetPublished m topic ++ [event].
Proof. unfold GetPublished at 1. cbn. rewrite lookup_insert_eq. reflexivity. Qed.

Lemma GetPublished_publish_other (topic other : string) (event : Event) (m : MockPublisher) :
  other <> topic ->
  GetPublished (fst (Mock_Publish topic event m)) other = GetPublished m other.
Proof.
  intros Hne. unfold GetPublished. cbn.
  rewrite lookup_insert_ne by congruence. reflexivity.
Qed.

Lemma GetPublished_publish_all (calls : list (string * Event)) (m : MockPublisher)
      (topic : string) :
  GetPublished (publish_all calls m) topic = GetPublished m topic ++ sent_to topic calls.
Proof.
  revert m. induction calls as [|[t e] calls IH]; intros m.
  - cbn. rewrite app_nil_r. reflexivity.
  - unfold publish_all in *. cbn [fold_left fst snd]. rewrite IH.
    unfold sent_to. rewrite filter_cons. cbn [fst].
    destruct (decide (t = topic)) as [->|Hne].
    + rewrite GetPublished_publish_same, <- app_assoc. reflexivity.
    + rewrite GetPublished_publish_other by congruence. reflexivity.
Qed.

(** C10: [Publish] on the mock returns [nil], appends the event to the
    sequence of its topic and leaves every other topic as it was;
    [GetPublished] gives a topic's events in publish order, and the empty
    sequence for a topic nothing was published to. *)
Theorem MockPublisher_appends_per_topic :
  (forall (topic : string) (event : Event) (m : MockPublisher),
      snd (Mock_Publish topic event m) = None
      /\ GetPublished (fst (Mock_Publish topic event m)) topic
         = GetPublished m topic ++ [event]
      /\ (forall other, other <> topic ->
            GetPublished (fst (Mock_Publish topic event m)) other
            = GetPublished m other))
  /\ (forall (calls : list (string * Event)) (topic : string),
         GetPublished (publish_all calls NewMockPublisher) topic = sent_to topic calls)
  /\ (forall (calls : list (string * Event)) (topic : string),
         Forall (fun c => fst c <> topic) calls ->
         GetPublished (publish_all calls NewMockPublisher) topic = []).
Proof.
  split; [|split].
  - intros topic event m. split; [reflexivity|]. split.
    + apply GetPublished_publish_same.
    + intros other Hne. apply GetPublished_publish_other, Hne.
  - intros calls topic. rewrite GetPublished_publish_all. reflexivity.
  - intros calls topic Hnone. rewrite GetPublished_publish_all. cbn.
    unfold sent_to. induction Hnone as [|c calls Hc _ IH]; [reflexivity|].
    rewrite filter_cons. destruct (decide (fst c = topic)); [contradiction|exact IH].
Qed.

(** The repository's own test of the mock, replayed. *)
Example TestMockPublisher :
  let event := Demo.with_Severity 5
                 (set_TenantID "test-tenant"
                    (set_EventID "123" (Demo.with_Category "auth" zero_Event))) in
  let pub := fst (Mock_Publish "raw.events.test-tenant" event NewMockPublisher) in
  length (GetPublished pub "raw.events.test-tenant") = 1%nat
  /\ (EventID <$> head (GetPublished pub "raw.events.test-tenant")) = Some "123".
Proof. vm_compute. split; reflexivity. Qed.

(** ** Effects on the world *)

Ltac world_simpl :=
  cbn [final Resp Bus PublishCalls Logs UUIDDraws ClockReads on_Resp log
       draw_uuid read_clock reject fresh serve] in *.

Lemma Code_http_Error (msg : string) (code : Z) (rw : ResponseRecorder) :
  Code (http_Error msg code rw) = if WroteHeader rw then Code rw else code.
Proof. unfold http_Error. cbn. destruct (WroteHeader rw); reflexivity. Qed.

Lemma append_inv_head (p a b : string) : (p ++ a)%string = (p ++ b)%string -> a = b.
Proof.
  induction p as [|c p IH]; cbn; intros Heq; [exact Heq|].
  injection Heq as Heq. apply IH, Heq.
Qed.

Lemma eqb_empty_len (s : string) : String.eqb s "" = true -> len s = 0.
Proof. intros Hs. apply String.eqb_eq in Hs. subst s. reflexivity. Qed.

(** ** The tenant validator *)

Section Validator.
Context {P : Type} `{Publisher P} `{Externals}.

Lemma TenantValidator_rejects (key : string) (r : Request) (w : World P) :
  len (tenant_header r) < 3 \/ 63 < len (tenant_header r) ->
  exists msg fields, forall next,
    TenantValidator key next r w
    = reject msg StatusBadRequest (log WarnLevel fields msg w).
Proof.
  intros Hlen. unfold TenantValidator. fold (tenant_header r).
  destruct (String.eqb (tenant_header r) "") eqn:He.
  - eexists _, _. intros next. reflexivity.
  - destruct ((len (tenant_header r) <? 3) || (63 <? len (tenant_header r))) eqn:Hb.
    + eexists _, _. intros next. reflexivity.
    + apply orb_false_iff in Hb as [H3 H63].
      apply Z.ltb_ge in H3. apply Z.ltb_ge in H63. lia.
Qed.

Lemma TenantValidator_forwards (key : string) (next : Handler P) (r : Request) (w : World P) :
  3 <= len (tenant_header r) <= 63 ->
  TenantValidator key next r w = next (with_tenant r) w.
Proof.
  intros [H3 H63]. unfold TenantValidator. fold (tenant_header r).
  destruct (String.eqb (tenant_header r) "") eqn:He.
  - apply eqb_empty_len in He. lia.
  - destruct ((len (tenant_header r) <? 3) || (63 <? len (tenant_header r))) eqn:Hb.
    + apply orb_true_iff in Hb as [Hb|Hb]; apply Z.ltb_lt in Hb; lia.
    + reflexivity.
Qed.

Lemma with_tenant_scope (r : Request) :
  context_String (Ctx (with_tenant r)) "tenant_id" = Some (tenant_header r).
Proof. reflexivity. Qed.

Lemma TenantValidator_answers (key : string) (r : Request) (w : World P) :
  len (tenant_header r) < 3 \/ 63 < len (tenant_header r) ->
  answers (TenantValidator key) r w StatusBadRequest.
Proof.
  intros Hlen.
  destruct (TenantValidator_rejects key r (fresh w) Hlen) as (msg & fields & Hr).
  exists (on_Resp (http_Error msg StatusBadRequest) (log WarnLevel fields msg (fresh w))).
  split; [|split; [|split]]; try reflexivity.
  intros next. unfold serve. rewrite Hr. reflexivity.
Qed.

Lemma Returned_not_Panicked {W : Type} (w w' : W) (reason : string) :
  Panicked reason w = Returned w' -> False.
Proof. discriminate. Qed.

(** C7: the tenant validator answers 400 exactly when the [X-Tenant-ID]
    header is absent or its length is outside [3, 63]; for a value of
    length 3 to 63 it hands over to the next handler, with that value
    stored unchanged as the request's tenant scope. *)
Theorem TenantValidator_length_3_to_63 (key : string) (r : Request) (w : World P) :
  ((ReqHeader r !! Header.CanonicalKey "X-Tenant-ID" = None
    \/ len (tenant_header r) < 3 \/ 63 < len (tenant_header r))
   <-> answers (TenantValidator key) r w StatusBadRequest)
  /\ (3 <= len (tenant_header r) <= 63
      <-> hands_over (TenantValidator key) r w (with_tenant r) (fresh w))
  /\ context_String (Ctx (with_tenant r)) "tenant_id" = Some (tenant_header r).
Proof.
  split; [|split].
  - split.
    + intros [Habs|Hlen].
      * apply TenantValidator_answers. left.
        unfold tenant_header. rewrite (Header_Get_absent _ _ Habs). reflexivity.
      * apply TenantValidator_answers, Hlen.
    + intros (w' & Hall & _).
      destruct (Z_lt_le_dec (len (tenant_header r)) 3) as [?|H3]; [tauto|].
      destruct (Z_lt_le_dec 63 (len (tenant_header r))) as [?|H63]; [tauto|].
      exfalso.
      specialize (Hall (fun _ w => Panicked "probe" w)). unfold serve in Hall.
      rewrite TenantValidator_forwards in Hall by lia.
      exact (Returned_not_Panicked _ _ _ Hall).
  - split.
    + intros Hlen next. unfold serve. apply TenantValidator_forwards, Hlen.
    + intros Hall.
      destruct (Z_lt_le_dec (len (tenant_header r)) 3) as [H3|H3];
        [|destruct (Z_lt_le_dec 63 (len (tenant_header r))) as [H63|H63]; [|lia]].
      all: exfalso.
      all: assert (Hlen : len (tenant_header r) < 3 \/ 63 < len (tenant_header r)) by lia.
      all: destruct (TenantValidator_rejects key r (fresh w) Hlen) as (msg & fields & Hr).
      all: specialize (Hall (fun _ w => Panicked "probe" w)); unfold serve in Hall.
      all: rewrite Hr in Hall; discriminate Hall.
  - apply with_tenant_scope.
Qed.

End Validator.

(** The repository's table of validator cases: a valid identifier, a
    missing header, one too short and one too long. *)
Example TestTenantValidator :
  map (fun h => Code (Resp (final (serve (TenantValidator "" Demo.probe)
                                         (Demo.bare h) Demo.world0))))
      ["acme-corp"; "ab";
       "this-is-a-very-long-tenant-id-that-exceeds-sixty-three-characters-limit"]
  = [StatusOK; StatusBadRequest; StatusBadRequest]
  /\ Code (Resp (final (serve (TenantValidator "" Demo.probe)
                              Demo.anonymous Demo.world0)))
     = StatusBadRequest.
Proof. vm_compute. split; reflexivity. Qed.

(** ** JWT authentication *)

Section Authentication.
Context {P : Type} `{Publisher P} `{Externals}.

Lemma bearer_token_Some (r : Request) (tokenString : string) :
  bearer_token r = Some tokenString ->
  String.eqb (Header.Get (ReqHeader r) "Authorization") "" = false
  /\ HasPrefix (Header.Get (ReqHeader r) "Authorization") "Bearer " = true
  /\ tokenString = TrimPrefix (Header.Get (ReqHeader r) "Authorization") "Bearer ".
Proof.
  unfold bearer_token.
  destruct (String.eqb (Header.Get (ReqHeader r) "Authorization") ""); [discriminate|].
  destruct (HasPrefix (Header.Get (ReqHeader r) "Authorization") "Bearer ");
    [|discriminate].
  intros [= <-]. auto.
Qed.

Lemma JWTAuth_no_bearer (key : string) (r : Request) (w : World P) :
  bearer_token r = None ->
  exists msg, forall next,
    JWTAuth key next r w = reject msg StatusUnauthorized (log WarnLevel [] msg w).
Proof.
  unfold bearer_token, JWTAuth.
  destruct (String.eqb (Header.Get (ReqHeader r) "Authorization") "").
  - intros _. eexists. intros next. reflexivity.
  - destruct (HasPrefix (Header.Get (ReqHeader r) "Authorization") "Bearer ");
      [discriminate|].
    intros _. eexists. intros next. reflexivity.
Qed.

(** With no key configured every bearer token is let through unparsed. *)
Lemma JWTAuth_dev_mode (r : Request) (w : World P) (tokenString : string) (next : Handler P) :
  bearer_token r = Some tokenString ->
  JWTAuth "" next r w
  = next r (log WarnLevel [] "JWT validation disabled (no public key configured)" w).
Proof.
  intros Hb. apply bearer_token_Some in Hb as (He & Hp & _).
  unfold JWTAuth. rewrite He, Hp. reflexivity.
Qed.

Lemma key_configured (key : string) : key <> "" -> String.eqb key "" = false.
Proof. intros Hk. apply String.eqb_neq, Hk. Qed.

Lemma JWTAuth_refused (key : string) (r : Request) (w : World P) :
  key <> "" ->
  (exists tokenString,
    bearer_token r = Some tokenString /\
    ((exists e, jwt_Parse tokenString (keyfunc key) = Err e) \/
     (exists token, jwt_Parse tokenString (keyfunc key) = Ok token /\ Valid token = false))) ->
  exists fields lmsg, forall next,
    JWTAuth key next r w
    = reject "Invalid token" StatusUnauthorized (log WarnLevel fields lmsg w).
Proof.
  intros Hk (tokenString & Hb & Hparse).
  apply bearer_token_Some in Hb as (He & Hp & ->).
  unfold JWTAuth. rewrite He, Hp, (key_configured key Hk). cbn [negb].
  destruct Hparse as [[e Hparse]|(token & Hparse & Hv)]; rewrite Hparse.
  - eexists _, _. intros next. reflexivity.
  - rewrite Hv. eexists _, _. intros next. reflexivity.
Qed.

Lemma JWTAuth_mismatch (key : string) (r : Request) (w : World P) (c h : string) :
  key <> "" ->
  presents_claim key r c ->
  context_Value (Ctx r) "tenant_id" = Some (CtxString h) ->
  c <> h ->
  forall next,
    JWTAuth key next r w
    = reject "Tenant ID mismatch" StatusForbidden
        (log WarnLevel [FStr "jwt_tenant_id" c; FStr "header_tenant_id" h]
           "Tenant ID mismatch" w).
Proof.
  intros Hk (tokenString & token & claims & Hb & Hparse & Hv & Hc & Ht) Hctx Hne next.
  apply bearer_token_Some in Hb as (He & Hp & ->).
  unfold JWTAuth. rewrite He, Hp, (key_configured key Hk). cbn [negb].
  rewrite Hparse, Hv. cbn [negb]. rewrite Hc, Ht, Hctx.
  apply String.eqb_neq in Hne. rewrite Hne. reflexivity.
Qed.

(** A match lets the request through, with the subject added when the
    token names one. *)
Lemma JWTAuth_match (key : string) (r : Request) (w : World P) (h : string) :
  key <> "" ->
  presents_claim key r h ->
  context_Value (Ctx r) "tenant_id" = Some (CtxString h) ->
  exists r', same_request r r' /\ forall next, JWTAuth key next r w = next r' w.
Proof.
  intros Hk (tokenString & token & claims & Hb & Hparse & Hv & Hc & Ht) Hctx.
  apply bearer_token_Some in Hb as (He & Hp & ->).
  unfold JWTAuth. rewrite He, Hp, (key_configured key Hk). cbn [negb].
  rewrite Hparse, Hv. cbn [negb]. rewrite Hc, Ht, Hctx, String.eqb_refl. cbn [negb].
  exists (match claims !! "sub" with
          | Some (JString userID) =>
              WithContext r (context_WithValue (Ctx r) "user_id" (CtxString userID))
          | _ => r
          end).
  split; [|intros next; reflexivity].
  destruct (claims !! "sub") as [[]|]; repeat split; reflexivity.
Qed.

Lemma answers_by_reject (m : Middleware P) (r : Request) (w w1 : World P)
      (msg : string) (code : Z) :
  (forall next, m next r (fresh w) = reject msg code w1) ->
  WroteHeader (Resp w1) = false ->
  unchanged w w1 ->
  answers m r w code.
Proof.
  intros Hall Hfresh [Hbus Hcalls].
  exists (on_Resp (http_Error msg code) w1). split; [|split; [|split]].
  - intros next. unfold serve. rewrite Hall. reflexivity.
  - world_simpl. rewrite Code_http_Error, Hfresh. reflexivity.
  - exact Hbus.
  - exact Hcalls.
Qed.

End Authentication.

(** ** The tenant resolver: header, then token *)

Section Resolver.
Context {P : Type} `{Publisher P} `{Externals}.

Lemma resolver_bad_header (key : string) (r : Request) (w : World P) :
  len (tenant_header r) < 3 \/ 63 < len (tenant_header r) ->
  answers (resolver key) r w StatusBadRequest.
Proof.
  intros Hlen.
  destruct (TenantValidator_rejects key r (fresh w) Hlen) as (msg & fields & Hr).
  apply (answers_by_reject _ _ _ (log WarnLevel fields msg (fresh w)) msg).
  - intros next. unfold resolver. apply Hr.
  - reflexivity.
  - split; reflexivity.
Qed.

Lemma resolver_no_valid_token (key : string) (r : Request) (w : World P) :
  key <> "" ->
  3 <= len (tenant_header r) <= 63 ->
  no_valid_token key r ->
  answers (resolver key) r w StatusUnauthorized.
Proof.
  intros Hk Hlen [Hnone|Hbad].
  - destruct (JWTAuth_no_bearer key (with_tenant r) (fresh w) Hnone) as (msg & Hr).
    apply (answers_by_reject _ _ _ (log WarnLevel [] msg (fresh w)) msg).
    + intros next. unfold resolver. rewrite TenantValidator_forwards by exact Hlen.
      apply Hr.
    + reflexivity.
    + split; reflexivity.
  - destruct (JWTAuth_refused key (with_tenant r) (fresh w) Hk Hbad)
      as (fields & lmsg & Hr).
    apply (answers_by_reject _ _ _ (log WarnLevel fields lmsg (fresh w)) "Invalid token").
    + intros next. unfold resolver. rewrite TenantValidator_forwards by exact Hlen.
      apply Hr.
    + reflexivity.
    + split; reflexivity.
Qed.

Lemma resolver_mismatch (key : string) (r : Request) (w : World P) (c : string) :
  key <> "" ->
  3 <= len (tenant_header r) <= 63 ->
  presents_claim key r c ->
  c <> tenant_header r ->
  answers (resolver key) r w StatusForbidden.
Proof.
  intros Hk Hlen Hclaim Hne.
  apply (answers_by_reject _ _ _
           (log WarnLevel [FStr "jwt_tenant_id" c;
                           FStr "header_tenant_id" (tenant_header r)]
              "Tenant ID mismatch" (fresh w))
           "Tenant ID mismatch").
  - intros next. unfold resolver. rewrite TenantValidator_forwards by exact Hlen.
    apply JWTAuth_mismatch; [exact Hk|exact Hclaim|reflexivity|exact Hne].
  - reflexivity.
  - split; reflexivity.
Qed.

Lemma keyfunc_gives_bytes (key : string) (unverified : Token) (k : Key) :
  keyfunc key unverified = Ok k ->
  (exists alg, TokenMethod unverified = SigningMethodRSA alg) /\ k = KeyBytes key.
Proof.
  unfold keyfunc. destruct (TokenMethod unverified) as [alg|alg]; [|discriminate].
  intros [= <-]. split; [exists alg|]; reflexivity.
Qed.

(** The key function hands the configured string over as bytes, and only
    for RSA methods, which take no bytes: no token gets through. *)
Lemma keyed_parse_fails (key tokenString : string) :
  parse_verifies_with_key ->
  exists e, jwt_Parse tokenString (keyfunc key) = Err e.
Proof.
  intros Hlaw.
  destruct (jwt_Parse tokenString (keyfunc key)) as [token|e] eqn:Hparse;
    [exfalso|exists e; reflexivity].
  destruct (Hlaw _ _ _ Hparse) as (unverified & k & Hmethod & Hkf & Hfits).
  apply keyfunc_gives_bytes in Hkf as [[alg Halg] ->].
  rewrite <- Hmethod, Halg in Hfits. exact Hfits.
Qed.

(** C5, as the code runs: the 403 branch of [JWTAuth] is there, but with a
    verification key configured no bearer token parses as valid, because
    the key function returns the key as bytes to an RSA-only verifier;
    so every request with a well-formed tenant header and a bearer token,
    a correctly signed one with a mismatching [tenant_id] claim included,
    is answered 401 by the resolver, not 403, and no request presents a
    verified claim. *)
Theorem keyed_resolver_answers_401_not_403 (key : string) (r : Request) (w : World P)
        (tokenString : string) :
  parse_verifies_with_key ->
  key <> "" ->
  3 <= len (tenant_header r) <= 63 ->
  bearer_token r = Some tokenString ->
  answers (resolver key) r w StatusUnauthorized
  /\ (forall c, ~ presents_claim key r c)
  /\ StatusUnauthorized <> StatusForbidden.
Proof.
  intros Hlaw Hk Hlen Hb. split; [|split; [|discriminate]].
  - apply resolver_no_valid_token; [exact Hk|exact Hlen|].
    right. exists tokenString. split; [exact Hb|]. left.
    apply keyed_parse_fails, Hlaw.
  - intros c (tok & token & claims & _ & Hparse & _).
    destruct (keyed_parse_fails key tok Hlaw) as [e He]. congruence.
Qed.

(** The amended C1: with no verification key configured the resolver
    neither verifies the token nor compares its claim with the header:
    every request whose [Authorization] header is a bearer one is handed
    to the inner handler unchanged, a warning being logged, whatever the
    token carries; a request without a bearer header is answered 401. *)
Theorem dev_mode_forwards_every_bearer (r : Request) (w : World P) (tokenString : string) :
  bearer_token r = Some tokenString ->
  hands_over (JWTAuth "") r w r
    (log WarnLevel [] "JWT validation disabled (no public key configured)" (fresh w))
  /\ (forall r0, bearer_token r0 = None -> answers (JWTAuth "") r0 w StatusUnauthorized).
Proof.
  intros Hb. split.
  - intros next. unfold serve. apply (JWTAuth_dev_mode _ _ tokenString), Hb.
  - intros r0 Hnone.
    destruct (JWTAuth_no_bearer "" r0 (fresh w) Hnone) as (msg & Hr).
    apply (answers_by_reject _ _ _ (log WarnLevel [] msg (fresh w)) msg).
    + exact Hr.
    + reflexivity.
    + split; reflexivity.
Qed.

End Resolver.

Lemma Demo_parse_verifies_with_key : parse_verifies_with_key.
Proof.
  intros tokenString kf token Hparse. cbn in Hparse. unfold Demo.parse in Hparse.
  destruct (Demo.assoc Demo.tokens tokenString) as [listed|]; [|discriminate].
  destruct (kf listed) as [[b|n e]|e] eqn:Hkf; [| |discriminate].
  - destruct (TokenMethod listed) as [alg|alg] eqn:Hm; [discriminate|].
    injection Hparse as <-. exists listed, (KeyBytes b).
    rewrite Hm. repeat split. exact Hkf.
  - injection Hparse as <-. exists listed, (KeyRSAPublic n e).
    split; [reflexivity|]. split; [exact Hkf|].
    destruct (TokenMethod listed); exact I.
Qed.

(** The request of the specification's example (header "acme-corp", a
    signed token claiming "other-corp"), with a key configured: 401. *)
Lemma keyed_resolver_answers_401_not_403_witness :
  answers (resolver "configured-key")
    (Demo.post "acme-corp" "Bearer token.of.other-corp" Demo.body_auth)
    Demo.world0 StatusUnauthorized
  /\ Code (Resp (final (serve (resolver "configured-key" Demo.probe)
                          (Demo.post "acme-corp" "Bearer token.of.other-corp" Demo.body_auth)
                          Demo.world0))) = StatusUnauthorized.
Proof.
  split.
  - refine (proj1 (keyed_resolver_answers_401_not_403 "configured-key"
                     (Demo.post "acme-corp" "Bearer token.of.other-corp" Demo.body_auth)
                     Demo.world0 "token.of.other-corp"
                     Demo_parse_verifies_with_key _ _ _)).
    + discriminate.
    + vm_compute. split; discriminate.
    + vm_compute. reflexivity.
  - vm_compute. reflexivity.
Defined.

(** C1 as stated fails: with [publicKey = ""], a request whose header says
    "acme-corp" and whose token carries the claim "other-corp" (as the
    keyed resolver reads it) reaches the inner handler, and through the
    whole chain it is accepted and published. *)
Lemma dev_mode_ignores_tenant_claim :
  (TokenClaims <$> Demo.assoc Demo.tokens "token.of.other-corp")
    = Some (MapClaims (Demo.claims_of "other-corp" "mallory"))
  /\ tenant_header (Demo.post "acme-corp" "Bearer token.of.other-corp" Demo.body_auth)
     = "acme-corp"
  /\ Demo.reached (serve (resolver "" Demo.probe)
                     (Demo.post "acme-corp" "Bearer token.of.other-corp" Demo.body_auth)
                     Demo.world0) = true
  /\ Code (Resp (final (serve (ingest_chain "")
                          (Demo.post "acme-corp" "Bearer token.of.other-corp" Demo.body_auth)
                          Demo.world0))) = StatusAccepted
  /\ map fst (PublishCalls (final (serve (ingest_chain "")
                          (Demo.post "acme-corp" "Bearer token.of.other-corp" Demo.body_auth)
                          Demo.world0))) = ["raw.events.acme-corp"].
Proof. vm_compute. repeat split; reflexivity. Qed.

Lemma dev_mode_forwards_every_bearer_witness :
  bearer_token (Demo.post "acme-corp" "Bearer token.of.other-corp" Demo.body_auth)
    = Some "token.of.other-corp"
  /\ hands_over (P := MockPublisher) (JWTAuth "")
       (Demo.post "acme-corp" "Bearer token.of.other-corp" Demo.body_auth)
       Demo.world0
       (Demo.post "acme-corp" "Bearer token.of.other-corp" Demo.body_auth)
       (log WarnLevel [] "JWT validation disabled (no public key configured)"
          (fresh Demo.world0)).
Proof.
  assert (Hb : bearer_token
                 (Demo.post "acme-corp" "Bearer token.of.other-corp" Demo.body_auth)
               = Some "token.of.other-corp") by (vm_compute; reflexivity).
  split; [exact Hb|].
  exact (proj1 (dev_mode_forwards_every_bearer _ Demo.world0 _ Hb)).
Defined.

(** ** The ingest handler *)

Section Ingest.
Context {P : Type} `{Publisher P} `{Externals}.

Lemma IngestEvents_missing_category (r : Request) (w : World P) (t : string) (event : Event) :
  decodes r t event ->
  Category event = "" ->
  IngestEvents r w = reject "Missing required field: category" StatusBadRequest w.
Proof.
  intros (Hm & Hc & Ht & body & Hb & Hj) Hcat.
  unfold IngestEvents. rewrite Hm, Hc, String.eqb_refl. cbn [negb].
  apply String.eqb_neq in Ht. rewrite Ht, Hb. cbn [io_ReadAll].
  rewrite Hj, Hcat. reflexivity.
Qed.

Lemma IngestEvents_publishes (r : Request) (w : World P) (t : string) (event : Event) :
  decodes r t event ->
  Category event <> "" ->
  let ev := enrich t r w event in
  let w' := final (IngestEvents r w) in
  PublishCalls w' = PublishCalls w ++ [(topic_of t, ev)]
  /\ Bus w' = fst (Publish (topic_of t) ev (Bus w))
  /\ UUIDDraws w' = S (UUIDDraws w)
  /\ (WroteHeader (Resp w) = false ->
      Code (Resp w') = match snd (Publish (topic_of t) ev (Bus w)) with
                       | None => StatusAccepted
                       | Some _ => StatusInternalServerError
                       end).
Proof.
  intros (Hm & Hc & Ht & body & Hb & Hj) Hcat ev w'. subst ev w'.
  unfold IngestEvents. rewrite Hm, Hc, String.eqb_refl. cbn [negb].
  apply String.eqb_neq in Ht. rewrite Ht, Hb. cbn [io_ReadAll].
  rewrite Hj. apply String.eqb_neq in Hcat. rewrite Hcat.
  unfold call_Publish. world_simpl.
  change (enrich t r (read_clock (draw_uuid w)) event) with (enrich t r w event).
  destruct (Publish (topic_of t) (enrich t r w event) (Bus w)) as [bus' [e|]];
    world_simpl; cbn [fst snd].
  - repeat split; try reflexivity.
    intros Hw. rewrite Code_http_Error. cbn. rewrite Hw. reflexivity.
  - repeat split; try reflexivity.
    intros Hw. cbn. rewrite Hw. reflexivity.
Qed.

Lemma IngestEvents_effect (r : Request) (w : World P) :
  WroteHeader (Resp w) = false ->
  effect (ingest_ready r) w (IngestEvents r w).
Proof.
  intros Hw.
  destruct (String.eqb (Method r) "POST") eqn:Hm.
  2: { left. unfold IngestEvents. rewrite Hm. split; reflexivity. }
  destruct (context_String (Ctx r) "tenant_id") as [t|] eqn:Hc.
  2: { left. unfold IngestEvents. rewrite Hm, Hc. split; reflexivity. }
  destruct (String.eqb t "") eqn:Ht.
  { left. unfold IngestEvents. rewrite Hm, Hc, Ht. split; reflexivity. }
  destruct (Body r) as [body|e] eqn:Hb.
  2: { left. unfold IngestEvents. rewrite Hm, Hc, Ht, Hb. split; reflexivity. }
  destruct (json_Unmarshal body) as [event|e] eqn:Hj.
  2: { left. unfold IngestEvents. rewrite Hm, Hc, Ht, Hb. cbn [io_ReadAll negb].
       rewrite Hj. split; reflexivity. }
  assert (Hd : decodes r t event).
  { apply String.eqb_eq in Hm. apply String.eqb_neq in Ht.
    split; [exact Hm|]. split; [exact Hc|]. split; [exact Ht|]. eauto. }
  destruct (String.eqb (Category event) "") eqn:Hcat.
  - left. apply String.eqb_eq in Hcat.
    rewrite (IngestEvents_missing_category r w t event Hd Hcat). split; reflexivity.
  - right. exists t. apply String.eqb_neq in Hcat.
    split; [exists event; split; assumption|].
    destruct (IngestEvents_publishes r w t event Hd Hcat) as (Hcalls & _ & _ & Hcode).
    exists (enrich t r w event). split; [exact Hcalls|]. split; [reflexivity|].
    rewrite (Hcode Hw).
    destruct (snd (Publish (topic_of t) (enrich t r w event) (Bus w))); auto.
Qed.

End Ingest.

(** ** The chain as a whole *)

Section WholeChain.
Context {P : Type} `{Publisher P} `{Externals}.

Lemma effect_weaken (Q Q' : string -> Prop) (w : World P) (o : Exit (World P)) :
  (forall t, Q t -> Q' t) -> effect Q w o -> effect Q' w o.
Proof.
  intros HQ [Hu|(t & Ht & Hp)]; [left; exact Hu|].
  right. exists t. split; [apply HQ, Ht|exact Hp].
Qed.

Lemma effect_transport (Q : string -> Prop) (w0 w : World P) (o : Exit (World P)) :
  unchanged w0 w -> effect Q w o -> effect Q w0 o.
Proof.
  intros [Hb Hc] [[Hb' Hc']|(t & Ht & ev & Hcalls & Hten & Hcode)].
  - left. split; congruence.
  - right. exists t. split; [exact Ht|]. exists ev.
    rewrite <- Hc. auto.
Qed.

Lemma effect_reject (Q : string -> Prop) (w w1 : World P) (msg : string) (code : Z) :
  unchanged w w1 -> effect Q w (reject msg code w1).
Proof. intros Hu. left. exact Hu. Qed.

(** Runs [JWTAuth] up to the claims of a token that parsed as valid. *)
Ltac unfold_auth :=
  match goal with
  | He : String.eqb (Header.Get _ _) _ = false, Hp : HasPrefix _ _ = true,
    Hkb : String.eqb _ _ = false, Htok : _ = TrimPrefix _ _,
    Hparse : jwt_Parse _ _ = _, Hv : Valid _ = true |- _ =>
      unfold JWTAuth; rewrite He, Hp, Hkb; cbn [negb];
      rewrite <- Htok, Hparse, Hv; cbn [negb]
  end.

Lemma JWTAuth_exit (key : string) (next : Handler P) (r : Request) (w : World P) :
  middleware_exit (JWTAuth key) next r w
    (fun r' => same_request r r' /\ authenticated key r).
Proof.
  destruct (bearer_token r) as [tokenString|] eqn:Hb.
  2: { destruct (JWTAuth_no_bearer key r w Hb) as (msg & Hr).
       eapply exit_reject; [apply Hr|reflexivity|split; reflexivity]. }
  assert (Hsome : bearer_token r <> None) by congruence.
  destruct (String.eqb key "") eqn:Hk.
  { apply String.eqb_eq in Hk. subst key.
    eapply exit_next;
      [apply (JWTAuth_dev_mode _ _ tokenString), Hb|reflexivity|split; reflexivity|].
    split; [repeat split|]. split; [exact Hsome|left; reflexivity]. }
  apply String.eqb_neq in Hk.
  destruct (jwt_Parse tokenString (keyfunc key)) as [token|e] eqn:Hparse.
  2: { destruct (JWTAuth_refused key r w Hk) as (fields & lmsg & Hr);
         [exists tokenString; eauto|].
       eapply exit_reject; [apply Hr|reflexivity|split; reflexivity]. }
  destruct (Valid token) eqn:Hv.
  2: { destruct (JWTAuth_refused key r w Hk) as (fields & lmsg & Hr);
         [exists tokenString; eauto|].
       eapply exit_reject; [apply Hr|reflexivity|split; reflexivity]. }
  pose proof (bearer_token_Some _ _ Hb) as (He & Hp & Htok).
  pose proof (key_configured key Hk) as Hkb.
  destruct (TokenClaims token) as [claims|] eqn:Hc.
  2: { eapply exit_reject; [unfold_auth; rewrite Hc; reflexivity|reflexivity|split; reflexivity]. }
  destruct (claims !! "tenant_id") as [claim|] eqn:Ht.
  2: { eapply exit_reject;
         [unfold_auth; rewrite Hc, Ht; reflexivity|reflexivity|split; reflexivity]. }
  destruct claim as [| | |c| |].
  4: { assert (Hclaim : presents_claim key r c).
       { exists tokenString, token, claims. auto. }
       destruct (context_Value (Ctx r) "tenant_id") as [[h|]|] eqn:Hctx.
       - destruct (String.eqb c h) eqn:Hch.
         + apply String.eqb_eq in Hch. subst c.
           destruct (JWTAuth_match key r w h Hk Hclaim Hctx) as (r' & Hsame & Hr).
           eapply exit_next; [apply Hr|reflexivity|split; reflexivity|].
           split; [exact Hsame|]. split; [exact Hsome|]. right. exists h.
           split; [|exact Hclaim].
           unfold context_String. rewrite Hctx. reflexivity.
         + apply String.eqb_neq in Hch.
           eapply exit_reject;
             [apply (JWTAuth_mismatch key r w c h Hk Hclaim Hctx Hch)
             |reflexivity|split; reflexivity].
       - eapply exit_panic. unfold_auth. rewrite Hc, Ht, Hctx. reflexivity.
       - eapply exit_panic. unfold_auth. rewrite Hc, Ht, Hctx. reflexivity. }
  all: eapply exit_reject;
    [unfold_auth; rewrite Hc, Ht; reflexivity|reflexivity|split; reflexivity].
Qed.

Lemma TenantValidator_exit (key : string) (next : Handler P) (r : Request) (w : World P) :
  middleware_exit (TenantValidator key) next r w
    (fun r' => r' = with_tenant r /\ 3 <= len (tenant_header r) <= 63).
Proof.
  destruct (Z_lt_le_dec (len (tenant_header r)) 3) as [H3|H3];
    [|destruct (Z_lt_le_dec 63 (len (tenant_header r))) as [H63|H63]].
  3: { eapply exit_next;
         [apply TenantValidator_forwards; lia|reflexivity|split; reflexivity|].
       split; [reflexivity|lia]. }
  all: assert (Hlen : len (tenant_header r) < 3 \/ 63 < len (tenant_header r)) by lia.
  all: destruct (TenantValidator_rejects key r w Hlen) as (msg & fields & Hr).
  all: eapply exit_reject; [apply Hr|reflexivity|split; reflexivity].
Qed.

(** A middleware that ends in one of the three ways passes the inner
    handler's effect on, restricted to the requests it lets through. *)
Lemma middleware_effect (m : Middleware P) (next : Handler P) (r : Request) (w : World P)
      (allowed : Request -> Prop) (Q : Request -> string -> Prop) :
  middleware_exit m next r w allowed ->
  (forall r' w', WroteHeader (Resp w') = false -> effect (Q r') w' (next r' w')) ->
  WroteHeader (Resp w) = false ->
  effect (fun t => exists r', allowed r' /\ Q r' t) w (m next r w).
Proof.
  intros [msg code w1 Hr Hresp Hu|reason Hr|r' w1 Hr Hresp Hu Hallowed] Hnext Hw;
    rewrite Hr.
  - apply effect_reject, Hu.
  - left. split; reflexivity.
  - apply (effect_transport _ w w1 _ Hu).
    eapply effect_weaken; [|apply Hnext; rewrite Hresp; exact Hw].
    intros t Ht. exists r'. auto.
Qed.

Lemma authMux_effect (r : Request) (w : World P) :
  WroteHeader (Resp w) = false ->
  effect (ingest_ready r) w (authMux r w).
Proof.
  intros Hw. unfold authMux, ServeMux_ServeHTTP.
  destruct (mux_route _ r) as [pattern|code msg].
  - cbn [mux_lookup].
    destruct (String.eqb "/v1/ingest/events" pattern).
    + apply IngestEvents_effect, Hw.
    + apply effect_reject. split; reflexivity.
  - apply effect_reject. split; reflexivity.
Qed.

Lemma RequestLogger_effect (next : Handler P) (r : Request) (w : World P)
      (Q : string -> Prop) :
  (forall w', WroteHeader (Resp w') = false -> unchanged w w' ->
              effect Q w' (next r w')) ->
  WroteHeader (Resp w) = false ->
  effect Q w (RequestLogger next r w).
Proof.
  intros Hnext Hw. unfold RequestLogger.
  specialize (Hnext (read_clock w) Hw (conj eq_refl eq_refl)).
  destruct (next r (read_clock w)) as [w'|reason w']; exact Hnext.
Qed.

Lemma admitted_of_layers (key : string) (r : Request) (t : string) :
  (exists r', (r' = with_tenant r /\ 3 <= len (tenant_header r) <= 63) /\
     exists r'', (same_request r' r'' /\ authenticated key r') /\ ingest_ready r'' t) ->
  admitted key r t.
Proof.
  intros (r' & [-> Hlen] & r'' & [(Hm & Hbody & _ & Hscope) (Hbearer & Hauth)]
          & event & (Hpost & Hctx & _ & body & Hb & Hj) & Hcat).
  rewrite Hscope, with_tenant_scope in Hctx. injection Hctx as <-.
  split; [reflexivity|]. split; [exact Hlen|]. split; [exact Hbearer|].
  split; [|split].
  - destruct Hauth as [Hk|(h & Hh & Hclaim)]; [left; exact Hk|right].
    rewrite with_tenant_scope in Hh. injection Hh as <-. exact Hclaim.
  - rewrite <- Hpost, Hm. reflexivity.
  - exists body, event. rewrite <- Hb, Hbody. auto.
Qed.

(** Every run of the chain of [main] either leaves the bus alone or
    publishes once, for a request that passed every check. *)
Lemma ingest_chain_effect (key : string) (r : Request) (w : World P) :
  effect (admitted key r) w (serve (ingest_chain key) r w).
Proof.
  unfold serve.
  change (ingest_chain key)
    with (RequestLogger (TenantValidator key (JWTAuth key authMux))).
  apply (effect_transport _ w (fresh w)); [split; reflexivity|].
  apply RequestLogger_effect; [|reflexivity].
  intros w' Hw' _.
  eapply effect_weaken; [apply admitted_of_layers|].
  apply (middleware_effect (TenantValidator key) _ r w' _
           (fun r' t => exists r'', (same_request r' r'' /\ authenticated key r')
                                    /\ ingest_ready r'' t));
    [apply TenantValidator_exit| |exact Hw'].
  intros r1 w1 Hw1.
  apply (middleware_effect (JWTAuth key) authMux r1 w1 _ ingest_ready);
    [apply JWTAuth_exit| |exact Hw1].
  intros r2 w2. apply authMux_effect.
Qed.

Lemma presents_claim_unique (key : string) (r : Request) (c c' : string) :
  presents_claim key r c -> presents_claim key r c' -> c = c'.
Proof.
  intros (tok & token & claims & Hb & Hp & _ & Hc & Ht)
         (tok' & token' & claims' & Hb' & Hp' & _ & Hc' & Ht').
  rewrite Hb in Hb'. injection Hb' as <-.
  rewrite Hp in Hp'. injection Hp' as <-.
  rewrite Hc in Hc'. injection Hc' as <-.
  rewrite Ht in Ht'. injection Ht' as <-. reflexivity.
Qed.

Lemma presents_claim_valid (key : string) (r : Request) (c : string) :
  presents_claim key r c -> no_valid_token key r -> False.
Proof.
  intros (tok & token & claims & Hb & Hp & Hv & _) [Hnone|(tok' & Hb' & Hbad)].
  - congruence.
  - rewrite Hb in Hb'. injection Hb' as <-.
    destruct Hbad as [[e He]|(token' & Hp' & Hv')]; [congruence|].
    rewrite Hp in Hp'. injection Hp' as <-. congruence.
Qed.

Lemma admitted_no_cause (key : string) (r : Request) (t : string) :
  admitted key r t -> rejection_cause key r -> False.
Proof.
  intros (-> & Hlen & Hbearer & Hauth & Hpost & body & event & Hb & Hj & Hcat) Hcause.
  destruct Hcause as [Hbad|Hnone|Hk Hinv|Hk Hno|c Hk Hclaim Hne|Hm|e Hf|body' e Hb' Hj'
                     |body' event' Hb' Hj' Hcat'].
  - lia.
  - contradiction.
  - destruct Hauth as [->|Hclaim]; [contradiction|].
    exact (presents_claim_valid key r _ Hclaim Hinv).
  - destruct Hauth as [->|Hclaim]; [contradiction|].
    exact (Hno _ Hclaim).
  - destruct Hauth as [->|Hclaim']; [contradiction|].
    exact (Hne (presents_claim_unique key r _ _ Hclaim Hclaim')).
  - contradiction.
  - congruence.
  - rewrite Hb in Hb'. injection Hb' as <-. congruence.
  - rewrite Hb in Hb'. injection Hb' as <-.
    rewrite Hj in Hj'. injection Hj' as <-. contradiction.
Qed.

(** C2: a request turned down for any of the listed reasons (tenant header
    missing or malformed, authorization missing or invalid, tenant claim
    missing or in disagreement with the header, wrong method, unreadable
    or invalid body, missing category), and more generally every request
    answered with something else than 202 or 500, leaves the bus as it
    was: the publisher's state is the same and no [Publish] call was
    made. *)
Theorem rejected_before_any_publish (key : string) (r : Request) (w : World P) :
  rejection_cause key r
  \/ (Code (Resp (final (serve (ingest_chain key) r w))) <> StatusAccepted
      /\ Code (Resp (final (serve (ingest_chain key) r w))) <> StatusInternalServerError) ->
  Bus (final (serve (ingest_chain key) r w)) = Bus w
  /\ PublishCalls (final (serve (ingest_chain key) r w)) = PublishCalls w.
Proof.
  intros Hrej.
  destruct (ingest_chain_effect key r w) as [Hu|(t & Hadm & ev & _ & _ & Hcode)];
    [exact Hu|exfalso].
  destruct Hrej as [Hcause|[H202 H500]].
  - exact (admitted_no_cause key r t Hadm Hcause).
  - destruct Hcode; contradiction.
Qed.

End WholeChain.

(** ** What the handler publishes *)

Section Published.
Context {P : Type} `{Publisher P} `{Externals}.

(** The amended C3: [category] is required and nothing more: a request
    whose category is absent (the empty string after decoding) is answered
    400 and nothing is published; a request with any non-empty category,
    in the enumeration or not, is published with that category unchanged,
    and answered 202 (500 when the publisher fails). *)
Theorem category_required_not_validated (r : Request) (w : World P) (t : string)
        (event : Event) :
  decodes r t event ->
  (Category event = "" ->
     Code (Resp (final (serve IngestEvents r w))) = StatusBadRequest
     /\ unchanged w (final (serve IngestEvents r w)))
  /\ (Category event <> "" ->
        exists ev,
          PublishCalls (final (serve IngestEvents r w))
          = PublishCalls w ++ [(topic_of t, ev)]
          /\ Category ev = Category event
          /\ Code (Resp (final (serve IngestEvents r w)))
             = match snd (Publish (topic_of t) ev (Bus w)) with
               | None => StatusAccepted
               | Some _ => StatusInternalServerError
               end).
Proof.
  intros Hd. split; intros Hcat; unfold serve.
  - rewrite (IngestEvents_missing_category r (fresh w) t event Hd Hcat).
    split; [reflexivity|split; reflexivity].
  - destruct (IngestEvents_publishes r (fresh w) t event Hd Hcat)
      as (Hcalls & _ & _ & Hcode).
    exists (enrich t r (fresh w) event).
    split; [exact Hcalls|]. split; [reflexivity|]. exact (Hcode eq_refl).
Qed.

(** C6: the event an accepted request publishes carries the identifier
    drawn from the generator at ingress (the draw is consumed, so no later
    request gets it again) and the tenant of the request context; what the
    body gave for [event_id] and [tenant_id] is overwritten: any two bodies
    that differ only there publish the same event. *)
Theorem ingress_assigns_event_and_tenant (r : Request) (w : World P) (t : string)
        (event : Event) :
  decodes r t event ->
  Category event <> "" ->
  exists ev,
    PublishCalls (final (serve IngestEvents r w)) = PublishCalls w ++ [(topic_of t, ev)]
    /\ EventID ev = uuid_New (UUIDDraws w)
    /\ TenantID ev = t
    /\ UUIDDraws (final (serve IngestEvents r w)) = S (UUIDDraws w)
    /\ (forall supplied_tenant supplied_id,
          enrich t r (fresh w) (set_TenantID supplied_tenant (set_EventID supplied_id event))
          = ev).
Proof.
  intros Hd Hcat. unfold serve.
  destruct (IngestEvents_publishes r (fresh w) t event Hd Hcat)
    as (Hcalls & _ & Hdraw & _).
  exists (enrich t r (fresh w) event).
  split; [exact Hcalls|]. repeat split; try reflexivity. exact Hdraw.
Qed.

End Published.

(** The request of the specification's example, once more: header
    "acme-corp", claim "other-corp", a key configured; the mock publisher
    holds nothing afterwards. *)
Lemma rejected_before_any_publish_witness :
  rejection_cause "configured-key"
    (Demo.post "acme-corp" "Bearer token.of.other-corp" Demo.body_auth)
  /\ (Bus (final (serve (ingest_chain "configured-key")
                    (Demo.post "acme-corp" "Bearer token.of.other-corp" Demo.body_auth)
                    Demo.world0)) = NewMockPublisher
      /\ PublishCalls (final (serve (ingest_chain "configured-key")
                    (Demo.post "acme-corp" "Bearer token.of.other-corp" Demo.body_auth)
                    Demo.world0)) = []).
Proof.
  assert (Hc : rejection_cause "configured-key"
                 (Demo.post "acme-corp" "Bearer token.of.other-corp" Demo.body_auth)).
  { apply authorization_invalid; [discriminate|].
    right. exists "token.of.other-corp". split; [vm_compute; reflexivity|].
    left. eexists. vm_compute. reflexivity. }
  split; [exact Hc|].
  exact (rejected_before_any_publish "configured-key" _ Demo.world0 (or_introl Hc)).
Defined.

(** The handler's view of a request that passed the middleware. *)
Lemma Demo_decodes (body : string) (event : Event) :
  Demo.unmarshal body = Ok event ->
  decodes (with_tenant (Demo.post "acme-corp" "Bearer token.of.acme-corp" body))
          "acme-corp" event.
Proof.
  intros Hj. split; [reflexivity|]. split; [vm_compute; reflexivity|].
  split; [discriminate|]. exists body. split; [reflexivity|exact Hj].
Qed.

(** C3 as stated fails: the category "bogus" is outside the enumeration,
    and a request carrying it is accepted and published (here through the
    whole chain in its default configuration, no key set). *)
Lemma category_outside_enum_is_published :
  in_category_enum "bogus" = false
  /\ (Category <$> Demo.assoc Demo.bodies Demo.body_bogus) = Some "bogus"
  /\ Code (Resp (final (serve (ingest_chain "")
                          (Demo.post "acme-corp" "Bearer token.of.acme-corp" Demo.body_bogus)
                          Demo.world0))) = StatusAccepted
  /\ map (fun e => (TenantID e, Category e))
         (GetPublished
            (Bus (final (serve (ingest_chain "")
                           (Demo.post "acme-corp" "Bearer token.of.acme-corp" Demo.body_bogus)
                           Demo.world0)))
            "raw.events.acme-corp")
     = [("acme-corp", "bogus")].
Proof. vm_compute. repeat split; reflexivity. Qed.

Lemma category_required_not_validated_witness :
  decodes (with_tenant (Demo.post "acme-corp" "Bearer token.of.acme-corp" Demo.body_bogus))
          "acme-corp" (Demo.with_Category "bogus" zero_Event)
  /\ exists ev,
       PublishCalls (final (serve IngestEvents
                              (with_tenant (Demo.post "acme-corp" "Bearer token.of.acme-corp"
                                              Demo.body_bogus))
                              Demo.world0))
       = PublishCalls Demo.world0 ++ [(topic_of "acme-corp", ev)]
       /\ Category ev = "bogus"
       /\ Code (Resp (final (serve IngestEvents
                              (with_tenant (Demo.post "acme-corp" "Bearer token.of.acme-corp"
                                              Demo.body_bogus))
                              Demo.world0)))
          = match snd (Publish (topic_of "acme-corp") ev (Bus Demo.world0)) with
            | None => StatusAccepted
            | Some _ => StatusInternalServerError
            end.
Proof.
  assert (Hd := Demo_decodes Demo.body_bogus _ eq_refl).
  split; [exact Hd|].
  refine (proj2 (category_required_not_validated _ Demo.world0 _ _ Hd) _).
  discriminate.
Defined.

Lemma ingress_assigns_event_and_tenant_witness :
  Demo.unmarshal Demo.body_forged
  = Ok (set_TenantID "other-corp"
          (set_EventID "caller-id" (Demo.with_Category "auth" zero_Event)))
  /\ exists ev,
       PublishCalls (final (serve IngestEvents
                              (with_tenant (Demo.post "acme-corp" "Bearer token.of.acme-corp"
                                              Demo.body_forged))
                              Demo.world0))
       = PublishCalls Demo.world0 ++ [(topic_of "acme-corp", ev)]
       /\ EventID ev = "123e4567-e89b-42d3-a456-426614174000"
       /\ TenantID ev = "acme-corp".
Proof.
  split; [reflexivity|].
  destruct (ingress_assigns_event_and_tenant
              (with_tenant (Demo.post "acme-corp" "Bearer token.of.acme-corp"
                              Demo.body_forged))
              Demo.world0 "acme-corp" _ (Demo_decodes Demo.body_forged _ eq_refl))
    as (ev & Hcalls & Hid & Hten & _).
  - discriminate.
  - exists ev. split; [exact Hcalls|]. split; [exact Hid|exact Hten].
Defined.

(** The repository's handler test: a valid event is accepted and
    published, a missing category and a wrong method are turned down. *)
Example TestIngestEvents :
  map (fun r => Code (Resp (final (serve IngestEvents r Demo.world0))))
      [ with_tenant (Demo.post "acme-corp" "" Demo.body_auth);
        with_tenant (Demo.post "acme-corp" "" Demo.body_no_category);
        with_tenant (Demo.bare "acme-corp") ]
  = [StatusAccepted; StatusBadRequest; StatusMethodNotAllowed]
  /\ length (GetPublished
               (Bus (final (serve IngestEvents
                              (with_tenant (Demo.post "acme-corp" "" Demo.body_auth))
                              Demo.world0)))
               "raw.events.acme-corp") = 1%nat.
Proof. vm_compute. split; reflexivity. Qed.

(** ** The sliding window of the state store *)

Section Window.
Import StateStore.
Variable W : Z.

Lemma prune_app (q : Z) (l1 l2 : list Observation) :
  prune q W (l1 ++ l2) = prune q W l1 ++ prune q W l2.
Proof. unfold prune. apply List.filter_app. Qed.

Lemma prune_prune (now q : Z) (obs : list Observation) :
  now <= q -> prune q W (prune now W obs) = prune q W obs.
Proof.
  intros Hle. unfold prune. induction obs as [|o obs IH]; [reflexivity|].
  cbn [List.filter].
  destruct (in_window now W o) eqn:Hnow; cbn [List.filter];
    destruct (in_window q W o) eqn:Hq; rewrite ?IH; try reflexivity.
  unfold in_window in *.
  apply Z.ltb_lt in Hq. apply Z.ltb_ge in Hnow. lia.
Qed.

Lemma entry_insert_same (s : Store) (tenant_id key : string) (obs : list Observation) :
  entry (<[(tenant_id, key) := obs]> s) tenant_id key = obs.
Proof. unfold entry. rewrite lookup_insert_eq. reflexivity. Qed.

Lemma entry_insert_other (s : Store) (t k tenant_id key : string) (obs : list Observation) :
  (t, k) <> (tenant_id, key) ->
  entry (<[(t, k) := obs]> s) tenant_id key = entry s tenant_id key.
Proof. intros Hne. unfold entry. rewrite lookup_insert_ne by exact Hne. reflexivity. Qed.

Lemma same_key_eqb (t k tenant_id key : string) :
  String.eqb t tenant_id && String.eqb k key = true <-> (t, k) = (tenant_id, key).
Proof.
  rewrite andb_true_iff, !String.eqb_eq. split.
  - intros [-> ->]. reflexivity.
  - intros [= -> ->]. auto.
Qed.

Lemma chronological_last (ops : list Op) (from : Z) :
  chronological from ops -> from <= last_time from ops.
Proof.
  revert from. induction ops as [|op ops IH]; intros from; cbn; [lia|].
  intros [Hle Hrest]. specialize (IH _ Hrest). lia.
Qed.

(** What a key's entry holds after a run, seen through the window at any
    later time: the observations it started with and the ones recorded
    since. *)
Lemma run_entry (tenant_id key : string) (ops : list Op) :
  forall (s : Store) (from q : Z),
    chronological from ops ->
    last_time from ops <= q ->
    prune q W (entry (run W ops s) tenant_id key)
    = prune q W (entry s tenant_id key ++ map observed (recorded tenant_id key ops)).
Proof.
  induction ops as [|op ops IH]; intros s from q Hchron Hlast.
  - cbn. rewrite app_nil_r. reflexivity.
  - destruct Hchron as [Hfrom Hrest]. cbn [last_time] in Hlast.
    pose proof (chronological_last ops _ Hrest) as Hnow.
    unfold run in *. cbn [fold_left]. rewrite (IH _ _ q Hrest Hlast).
    destruct op as [t k now|t k now]; cbn [step increment get fst recorded op_time] in *.
    + destruct (String.eqb t tenant_id && String.eqb k key) eqn:Hk.
      * apply same_key_eqb in Hk. injection Hk as -> ->.
        rewrite entry_insert_same. cbn [map].
        rewrite !prune_app, prune_prune by lia.
        change (observed now :: map observed (recorded tenant_id key ops))
          with ([observed now] ++ map observed (recorded tenant_id key ops)).
        rewrite (prune_app q [observed now]), app_assoc. reflexivity.
      * rewrite entry_insert_other; [reflexivity|].
        intros Heq. apply same_key_eqb in Heq. congruence.
    + destruct (String.eqb t tenant_id && String.eqb k key) eqn:Hk.
      * apply same_key_eqb in Hk. injection Hk as -> ->.
        rewrite entry_insert_same, !prune_app, prune_prune by lia. reflexivity.
      * rewrite entry_insert_other; [reflexivity|].
        intros Heq. apply same_key_eqb in Heq. congruence.
Qed.

Lemma recorded_before (tenant_id key : string) (ops : list Op) :
  forall from q, chronological from ops -> last_time from ops <= q ->
                 Forall (fun t => t <= q) (recorded tenant_id key ops).
Proof.
  induction ops as [|op ops IH]; intros from q Hchron Hlast; [constructor|].
  destruct Hchron as [Hfrom Hrest]. cbn [last_time] in Hlast.
  pose proof (chronological_last ops _ Hrest) as Hnow.
  specialize (IH _ q Hrest Hlast).
  destruct op as [t k now|t k now]; cbn [recorded op_time] in *; [|exact IH].
  destruct (String.eqb t tenant_id && String.eqb k key); [|exact IH].
  constructor; [lia|exact IH].
Qed.

Lemma count_prune_observed (q : Z) (ts : list Z) :
  Forall (fun t => t <= q) ts ->
  count (prune q W (map observed ts)) = contributing W q ts.
Proof.
  intros Hall. unfold count, contributing, prune. f_equal.
  induction Hall as [|t ts Ht _ IH]; [reflexivity|].
  cbn [map List.filter]. unfold in_window at 1. cbn [at_time observed].
  apply Z.leb_le in Ht. rewrite Ht. cbn [andb].
  destruct (q <? t + W); cbn [length]; rewrite IH; reflexivity.
Qed.

End Window.

Lemma entry_empty (tenant_id key : string) :
  StateStore.entry ∅ tenant_id key = [].
Proof. unfold StateStore.entry. rewrite lookup_empty. reflexivity. Qed.

Lemma prune_in_window (W q : Z) (obs : list StateStore.Observation) :
  Forall (fun o => q - W < StateStore.at_time o) (StateStore.prune q W obs).
Proof.
  unfold StateStore.prune. induction obs as [|o obs IH]; [constructor|].
  cbn [List.filter]. destruct (StateStore.in_window q W o) eqn:Hin; [|exact IH].
  constructor; [|exact IH].
  unfold StateStore.in_window in Hin. apply Z.ltb_lt in Hin. lia.
Qed.

(** C4 (against the store modelled from the specification): after any run
    of calls made at non-decreasing times with window [W], [increment] at
    time [q] stores the pruned entry followed by the new observation, every
    observation it keeps is younger than [q - W], and it returns one more
    than the number of earlier observations [t] of that (tenant, key) with
    [t <= q < t + W]; [get] returns that number.  So an observation made
    at [t] counts at every query time in [[t, t + W)] and at none from
    [t + W] on. *)
Theorem sliding_window_counts (W : Z) (tenant_id key : string)
        (ops : list StateStore.Op) (from q : Z) :
  StateStore.chronological from ops ->
  StateStore.last_time from ops <= q ->
  snd (StateStore.increment (StateStore.run W ops ∅) tenant_id key W q)
  = StateStore.contributing W q (StateStore.recorded tenant_id key ops) + 1
  /\ StateStore.entry
       (fst (StateStore.increment (StateStore.run W ops ∅) tenant_id key W q))
       tenant_id key
     = StateStore.prune q W (StateStore.entry (StateStore.run W ops ∅) tenant_id key)
         ++ [StateStore.observed q]
  /\ Forall (fun o => q - W < StateStore.at_time o)
            (StateStore.prune q W (StateStore.entry (StateStore.run W ops ∅) tenant_id key))
  /\ snd (StateStore.get (StateStore.run W ops ∅) tenant_id key W q)
     = StateStore.contributing W q (StateStore.recorded tenant_id key ops)
  /\ (forall t, StateStore.contributing W q [t]
                = if (t <=? q) && (q <? t + W) then 1 else 0).
Proof.
  intros Hchron Hlast.
  assert (Hcount :
            StateStore.count
              (StateStore.prune q W (StateStore.entry (StateStore.run W ops ∅) tenant_id key))
            = StateStore.contributing W q (StateStore.recorded tenant_id key ops)).
  { rewrite (run_entry W tenant_id key ops ∅ from q Hchron Hlast), entry_empty.
    cbn [app]. apply count_prune_observed.
    exact (recorded_before tenant_id key ops from q Hchron Hlast). }
  split; [|split; [|split; [|split]]].
  - cbn [StateStore.increment snd]. rewrite <- Hcount.
    unfold StateStore.count. rewrite length_app. cbn [length]. lia.
  - cbn [StateStore.increment fst]. apply entry_insert_same.
  - apply prune_in_window.
  - cbn [StateStore.get snd]. exact Hcount.
  - intros t. unfold StateStore.contributing. cbn [List.filter].
    destruct ((t <=? q) && (q <? t + W)); reflexivity.
Qed.

(** The specification's literal timestamps: nine observations at
    0, 30, ..., 240 seconds and a window of 300 seconds; at 301 seconds the
    first one has aged out, so [get] reads 8 and an [increment] returns 9,
    not 10. *)
Lemma sliding_window_counts_witness :
  StateStore.chronological 0
    (map (StateStore.Increment "acme-corp" "user123") [0; 30; 60; 90; 120; 150; 180; 210; 240])
  /\ snd (StateStore.increment
            (StateStore.run 300
               (map (StateStore.Increment "acme-corp" "user123")
                    [0; 30; 60; 90; 120; 150; 180; 210; 240]) ∅)
            "acme-corp" "user123" 300 301) = 9
  /\ snd (StateStore.get
            (StateStore.run 300
               (map (StateStore.Increment "acme-corp" "user123")
                    [0; 30; 60; 90; 120; 150; 180; 210; 240]) ∅)
            "acme-corp" "user123" 300 301) = 8.
Proof.
  assert (Hchron : StateStore.chronological 0
            (map (StateStore.Increment "acme-corp" "user123")
                 [0; 30; 60; 90; 120; 150; 180; 210; 240]))
    by (cbn; repeat split; lia).
  split; [exact Hchron|].
  destruct (sliding_window_counts 300 "acme-corp" "user123" _ 0 301 Hchron)
    as (Hinc & _ & _ & Hget & _).
  - cbn. lia.
  - split; [exact Hinc|exact Hget].
Defined.

(** Tenant isolation in the store: the same key string under another
    tenant is another entry. *)
Example store_tenants_apart :
  snd (StateStore.get
         (fst (StateStore.increment ∅ "acme-corp" "user123" 300 10))
         "other-corp" "user123" 300 11) = 0
  /\ snd (StateStore.get
            (fst (StateStore.increment ∅ "acme-corp" "user123" 300 10))
            "acme-corp" "user123" 300 11) = 1.
Proof. vm_compute. split; reflexivity. Qed.

(** * Further properties of the service *)

(** ** Configuration *)

Lemma getEnv_unset (env : config.Environ) (key defaultValue : string) :
  config.os_Getenv env key = "" -> config.getEnv env key defaultValue = defaultValue.
Proof. intros He. unfold config.getEnv. rewrite He. reflexivity. Qed.

Lemma getEnv_set (env : config.Environ) (key defaultValue : string) :
  config.os_Getenv env key <> "" ->
  config.getEnv env key defaultValue = config.os_Getenv env key.
Proof.
  intros He. unfold config.getEnv. apply String.eqb_neq in He. rewrite He. reflexivity.
Qed.

Lemma getEnv_nonempty (env : config.Environ) (key defaultValue : string) :
  defaultValue <> "" -> config.getEnv env key defaultValue <> "".
Proof.
  intros Hd. destruct (string_dec (config.os_Getenv env key) "") as [He|He].
  - rewrite getEnv_unset by exact He. exact Hd.
  - rewrite getEnv_set by exact He. exact He.
Qed.

(** X1: whatever the environment, [Load] yields a non-empty port, NATS
    URL and log level: a variable set to the empty string falls back to
    its default exactly like an unset one.  Only the JWT key can come out
    empty, and it does exactly when [JWT_PUBLIC_KEY] is unset or empty;
    the service then runs with the key [""]. *)
Theorem Load_defaults_cover_empty_values (env : config.Environ) :
  config.Port (config.Load env) <> ""
  /\ config.NATSURL (config.Load env) <> ""
  /\ config.LogLevel (config.Load env) <> ""
  /\ (forall key defaultValue,
        env !! key = Some "" ->
        config.getEnv env key defaultValue = config.getEnv (delete key env) key defaultValue)
  /\ (config.JWTPublicKey (config.Load env) = ""
      <-> (env !! "JWT_PUBLIC_KEY" = None \/ env !! "JWT_PUBLIC_KEY" = Some "")).
Proof.
  split; [|split; [|split; [|split]]].
  - apply getEnv_nonempty. discriminate.
  - apply getEnv_nonempty. discriminate.
  - apply getEnv_nonempty. discriminate.
  - intros key d Hk.
    rewrite !getEnv_unset; [reflexivity| |].
    + unfold config.os_Getenv. rewrite lookup_delete_eq. reflexivity.
    + unfold config.os_Getenv. rewrite Hk. reflexivity.
  - cbn [config.Load config.JWTPublicKey].
    assert (Hget : config.os_Getenv env "JWT_PUBLIC_KEY"
                   = match env !! "JWT_PUBLIC_KEY" with Some v => v | None => "" end).
    { unfold config.os_Getenv. destruct (env !! "JWT_PUBLIC_KEY"); reflexivity. }
    destruct (string_dec (config.os_Getenv env "JWT_PUBLIC_KEY") "") as [He|He].
    + rewrite getEnv_unset by exact He. split; [intros _|reflexivity].
      rewrite Hget in He.
      destruct (env !! "JWT_PUBLIC_KEY"); [right; f_equal; exact He|left; reflexivity].
    + rewrite getEnv_set by exact He. split; [intros He'; contradiction|].
      rewrite Hget in He. intros [Hn|Hs].
      * rewrite Hn in He. contradiction.
      * rewrite Hs in He. contradiction.
Qed.

Lemma os_Getenv_insert_other (env : config.Environ) (k key v : string) :
  k <> key -> config.os_Getenv (<[k := v]> env) key = config.os_Getenv env key.
Proof. intros Hne. unfold config.os_Getenv. rewrite lookup_insert_ne by exact Hne. reflexivity. Qed.

Lemma os_Getenv_delete_other (env : config.Environ) (k key : string) :
  k <> key -> config.os_Getenv (delete k env) key = config.os_Getenv env key.
Proof. intros Hne. unfold config.os_Getenv. rewrite lookup_delete_ne by exact Hne. reflexivity. Qed.

(** X2: [Load] reads the four variables PORT, NATS_URL, JWT_PUBLIC_KEY and
    LOG_LEVEL and nothing else: setting or unsetting any other variable
    (the README's JWT_PUBLIC_KEY_PATH for one) gives the same
    configuration. *)
Theorem Load_reads_four_variables (env : config.Environ) (k v : string) :
  ~ In k config.variables ->
  config.Load (<[k := v]> env) = config.Load env
  /\ config.Load (delete k env) = config.Load env.
Proof.
  intros Hk. cbn [config.variables In] in Hk.
  assert (k <> "PORT" /\ k <> "NATS_URL" /\ k <> "JWT_PUBLIC_KEY" /\ k <> "LOG_LEVEL")
    as (H1 & H2 & H3 & H4).
  { repeat split; intros ->; apply Hk; auto. }
  unfold config.Load, config.getEnv.
  rewrite !os_Getenv_insert_other, !os_Getenv_delete_other by assumption.
  split; reflexivity.
Qed.

(** A deployment that follows the README and sets only
    JWT_PUBLIC_KEY_PATH gets the configuration of an empty environment,
    key [""] included. *)
Lemma Load_reads_four_variables_witness :
  ~ In "JWT_PUBLIC_KEY_PATH" config.variables
  /\ config.Load (<["JWT_PUBLIC_KEY_PATH" := "/etc/keys/jwt.pem"]> ∅) = config.Load ∅
  /\ config.JWTPublicKey (config.Load (<["JWT_PUBLIC_KEY_PATH" := "/etc/keys/jwt.pem"]> ∅))
     = "".
Proof.
  assert (Hk : ~ In "JWT_PUBLIC_KEY_PATH" config.variables).
  { cbn. intros [Hk|[Hk|[Hk|[Hk|[]]]]]; discriminate Hk. }
  split; [exact Hk|].
  pose proof (proj1 (Load_reads_four_variables ∅ "JWT_PUBLIC_KEY_PATH"
                       "/etc/keys/jwt.pem" Hk)) as Hl.
  split; [exact Hl|]. rewrite Hl. reflexivity.
Defined.

(** ** More on [Chain] *)

Lemma Chain_foldr {A : Type} (handler : A) (middleware : list (A -> A)) :
  Chain handler middleware = foldr (fun m next => m next) handler middleware.
Proof. unfold Chain. rewrite Chain_loop_take, take_ge by lia. reflexivity. Qed.

(** X3: chains compose: applying [a ++ b] is applying [b] first and [a]
    around the result, an empty list of middleware changes nothing, and
    one more middleware in front wraps the whole chain. *)
Theorem Chain_app {A : Type} (handler : A) (a b : list (A -> A)) (m : A -> A) :
  Chain handler (a ++ b) = Chain (Chain handler b) a
  /\ Chain handler [] = handler
  /\ Chain handler (m :: a) = m (Chain handler a).
Proof.
  rewrite !Chain_foldr, foldr_app. repeat split.
Qed.

(** ** Replies of the ingest handler *)

Section Replies.
Context {P : Type} `{Publisher P} `{Externals}.

Lemma IngestEvents_run (r : Request) (w : World P) (t : string) (event : Event) :
  decodes r t event ->
  Category event <> "" ->
  IngestEvents r w
  = let ev := enrich t r w event in
    let '(w1, err) := call_Publish (topic_of t) ev (read_clock (draw_uuid w)) in
    match err with
    | Some e =>
        reject "Internal server error" StatusInternalServerError
          (log ErrorLevel [FErr e; FStr "tenant_id" t; FStr "topic" (topic_of t)]
             "Failed to publish event" w1)
    | None =>
        Returned
          (on_Resp
             (fun rw =>
                Write (json_Encode (accepted_body (EventID ev)))
                  (WriteHeader StatusAccepted
                     (SetHeader "Content-Type" "application/json" rw)))
             (log InfoLevel
                [FStr "tenant_id" t; FStr "event_id" (EventID ev);
                 FStr "category" (Category ev); FInt "severity" (Severity ev)]
                "Event ingested" w1))
    end.
Proof.
  intros (Hm & Hc & Ht & body & Hb & Hj) Hcat.
  unfold IngestEvents. rewrite Hm, Hc, String.eqb_refl. cbn [negb].
  apply String.eqb_neq in Ht. rewrite Ht, Hb. cbn [io_ReadAll].
  rewrite Hj. apply String.eqb_neq in Hcat. rewrite Hcat. reflexivity.
Qed.

Lemma Content_Type_set (v : string) (h : Header.t) :
  Header.Get (Header.Set_ h "Content-Type" v) "Content-Type" = v.
Proof. unfold Header.Get, Header.Set_. rewrite lookup_insert_eq. reflexivity. Qed.

(** X4: when the publisher acknowledges, the client is answered 202 with a
    JSON body built from the identifier of the very event that was
    published (the last [Publish] call), with content type
    [application/json], and the last log entry names that identifier. *)
Theorem accepted_reply_names_published_event (r : Request) (w : World P) (t : string)
        (event : Event) :
  decodes r t event ->
  Category event <> "" ->
  snd (Publish (topic_of t) (enrich t r (fresh w) event) (Bus w)) = None ->
  exists ev,
    last (PublishCalls (final (serve IngestEvents r w))) = Some (topic_of t, ev)
    /\ Code (Resp (final (serve IngestEvents r w))) = StatusAccepted
    /\ RespBody (Resp (final (serve IngestEvents r w)))
       = json_Encode (accepted_body (EventID ev))
    /\ Header.Get (RespHeader (Resp (final (serve IngestEvents r w)))) "Content-Type"
       = "application/json"
    /\ accepted_body (EventID ev) !! "event_id" = Some (EventID ev)
    /\ (LogFields <$> last (Logs (final (serve IngestEvents r w))))
       = Some [FStr "tenant_id" t; FStr "event_id" (EventID ev);
               FStr "category" (Category event); FInt "severity" (Severity event)].
Proof.
  intros Hd Hcat Hack. exists (enrich t r (fresh w) event).
  unfold serve. rewrite (IngestEvents_run r (fresh w) t event Hd Hcat).
  cbn zeta. unfold call_Publish. world_simpl.
  change (enrich t r (fresh w) event) with (enrich t r w event) in *.
  destruct (Publish (topic_of t) (enrich t r w event) (Bus w)) as [bus' err].
  cbn [snd] in Hack. subst err. world_simpl.
  split; [apply last_snoc|]. split; [reflexivity|]. split; [reflexivity|].
  split; [apply Content_Type_set|]. split; [reflexivity|].
  rewrite last_snoc. reflexivity.
Qed.

(** X5: when the publisher fails, the client is answered 500 with the
    fixed text "Internal server error": the publisher's error text goes to
    the log (with tenant and topic), not to the response; the identifier
    drawn for the event is spent all the same. *)
Theorem publish_failure_is_logged_not_disclosed (r : Request) (w : World P) (t : string)
        (event : Event) (e : string) :
  decodes r t event ->
  Category event <> "" ->
  snd (Publish (topic_of t) (enrich t r (fresh w) event) (Bus w)) = Some e ->
  Code (Resp (final (serve IngestEvents r w))) = StatusInternalServerError
  /\ RespBody (Resp (final (serve IngestEvents r w)))
     = ("Internal server error" ++ newline)%string
  /\ last (Logs (final (serve IngestEvents r w)))
     = Some {| LogLevel := ErrorLevel;
               LogFields := [FErr e; FStr "tenant_id" t; FStr "topic" (topic_of t)];
               LogMsg := "Failed to publish event" |}
  /\ UUIDDraws (final (serve IngestEvents r w)) = S (UUIDDraws w).
Proof.
  intros Hd Hcat Hfail.
  unfold serve. rewrite (IngestEvents_run r (fresh w) t event Hd Hcat).
  cbn zeta. unfold call_Publish. world_simpl.
  change (enrich t r (fresh w) event) with (enrich t r w event) in *.
  destruct (Publish (topic_of t) (enrich t r w event) (Bus w)) as [bus' err].
  cbn [snd] in Hfail. subst err. world_simpl.
  split; [reflexivity|]. split; [reflexivity|].
  split; [apply last_snoc|reflexivity].
Qed.

End Replies.

Lemma Demo_decodes_for (tenant body : string) (event : Event) :
  tenant <> "" ->
  Demo.unmarshal body = Ok event ->
  decodes (WithContext (Demo.post tenant "Bearer token.of.acme-corp" body)
             [("tenant_id", CtxString tenant)])
          tenant event.
Proof.
  intros Ht Hj. split; [reflexivity|]. split.
  - unfold context_String. cbn. reflexivity.
  - split; [exact Ht|]. exists body. split; [reflexivity|exact Hj].
Qed.

Lemma accepted_reply_names_published_event_witness :
  exists ev,
    last (PublishCalls (final (serve IngestEvents
            (WithContext (Demo.post "acme-corp" "Bearer token.of.acme-corp" Demo.body_auth)
               [("tenant_id", CtxString "acme-corp")]) Demo.world0)))
    = Some (topic_of "acme-corp", ev)
    /\ RespBody (Resp (final (serve IngestEvents
            (WithContext (Demo.post "acme-corp" "Bearer token.of.acme-corp" Demo.body_auth)
               [("tenant_id", CtxString "acme-corp")]) Demo.world0)))
       = json_Encode (accepted_body (EventID ev)).
Proof.
  destruct (accepted_reply_names_published_event
              (WithContext (Demo.post "acme-corp" "Bearer token.of.acme-corp" Demo.body_auth)
                 [("tenant_id", CtxString "acme-corp")])
              Demo.world0 "acme-corp" _
              (Demo_decodes_for "acme-corp" Demo.body_auth _ ltac:(discriminate) eq_refl))
    as (ev & Hlast & _ & Hbody & _).
  - discriminate.
  - reflexivity.
  - exists ev. split; [exact Hlast|exact Hbody].
Defined.

(** A stream that is full for one tenant: the handler answers 500. *)
Lemma publish_failure_is_logged_not_disclosed_witness :
  Code (Resp (final (serve IngestEvents
          (WithContext (Demo.post "full-tenant" "Bearer token.of.acme-corp" Demo.body_auth)
             [("tenant_id", CtxString "full-tenant")]) Demo2.world0)))
  = StatusInternalServerError
  /\ RespBody (Resp (final (serve IngestEvents
          (WithContext (Demo.post "full-tenant" "Bearer token.of.acme-corp" Demo.body_auth)
             [("tenant_id", CtxString "full-tenant")]) Demo2.world0)))
     = ("Internal server error" ++ newline)%string.
Proof.
  destruct (publish_failure_is_logged_not_disclosed
              (WithContext (Demo.post "full-tenant" "Bearer token.of.acme-corp" Demo.body_auth)
                 [("tenant_id", CtxString "full-tenant")])
              Demo2.world0 "full-tenant" _ "nats: maximum bytes exceeded"
              (Demo_decodes_for "full-tenant" Demo.body_auth _ ltac:(discriminate) eq_refl))
    as (Hcode & Hbody & _).
  - discriminate.
  - vm_compute. reflexivity.
  - split; [exact Hcode|exact Hbody].
Defined.

(** ** More on JWT authentication *)

Section Subject.
Context {P : Type} `{Publisher P} `{Externals}.

Lemma verified_claims_run (key : string) (next : Handler P) (r : Request) (w : World P)
      (claims : gmap string JSONValue) (c : string) :
  key <> "" ->
  verified_claims key r claims ->
  claims !! "tenant_id" = Some (JString c) ->
  JWTAuth key next r w
  = match context_Value (Ctx r) "tenant_id" with
    | Some (CtxString headerTenantID) =>
        if negb (String.eqb c headerTenantID) then
          reject "Tenant ID mismatch" StatusForbidden
            (log WarnLevel
               [FStr "jwt_tenant_id" c; FStr "header_tenant_id" headerTenantID]
               "Tenant ID mismatch" w)
        else next (with_subject r claims) w
    | _ => Panicked "interface conversion: interface {} is not string" w
    end.
Proof.
  intros Hk (tokenString & token & Hb & Hparse & Hv & Hc) Ht.
  apply bearer_token_Some in Hb as (He & Hp & ->).
  unfold JWTAuth. rewrite He, Hp, (key_configured key Hk). cbn [negb].
  rewrite Hparse, Hv. cbn [negb]. rewrite Hc, Ht. reflexivity.
Qed.

End Subject.

(** ** Every run of the chain, step by step *)

Section Handled.
Context {P : Type} `{Publisher P} `{Externals}.

Lemma quiet_log (w : World P) (lvl : Level) (fields : list LogField) (msg : string) :
  quiet w (log lvl fields msg w).
Proof. repeat split. Qed.

Lemma quiet_refl (w : World P) : quiet w w.
Proof. repeat split. Qed.

Lemma JWTAuth_shape (key : string) (next : Handler P) (r : Request) (w : World P) :
  (exists msg code w1, JWTAuth key next r w = reject msg code w1 /\ quiet w w1)
  \/ (exists reason, JWTAuth key next r w = Panicked reason w
                     /\ context_String (Ctx r) "tenant_id" = None)
  \/ (exists r' w1, JWTAuth key next r w = next r' w1 /\ quiet w w1
                    /\ same_request r r' /\ URLPath r' = URLPath r
                    /\ RemoteAddr r' = RemoteAddr r).
Proof.
  unfold JWTAuth.
  repeat case_match;
    first
      [ left; eexists _, _, _; split; [reflexivity|apply quiet_log]
      | right; left; eexists; split; [reflexivity|];
        unfold context_String;
        match goal with Hc : context_Value _ _ = _ |- _ => rewrite Hc end; reflexivity
      | right; right; eexists _, _; split; [reflexivity|];
        split; [first [apply quiet_log|apply quiet_refl]|];
        repeat split; reflexivity ].
Qed.

Lemma turned_down_reject (w w1 : World P) (msg : string) (code : Z) :
  Resp w = NewRecorder -> quiet w w1 ->
  turned_down w (on_Resp (http_Error msg code) w1).
Proof.
  intros Hw (Hresp & Hbus & Hcalls & Hdraws & _).
  split; [exact Hbus|]. split; [exact Hcalls|]. split; [exact Hdraws|].
  unfold wrote_once. world_simpl. rewrite Hresp, Hw. reflexivity.
Qed.

Lemma handled_transport (scope : string -> Prop) (w0 w : World P) (o : Exit (World P)) :
  quiet w0 w -> handled scope w o -> handled scope w0 o.
Proof.
  intros (_ & Hbus & Hcalls & Hdraws & _) (w' & Ho & Hcase).
  exists w'. split; [exact Ho|].
  destruct Hcase as [(Hb & Hc & Hd & Hone)|(t & Ht & ev & Hten & Hid & Hb & Hc & Hd & Hrest)].
  - left. repeat split; congruence.
  - right. exists t. split; [exact Ht|]. exists ev.
    rewrite <- Hbus, <- Hcalls, <- Hdraws. auto 10.
Qed.

Lemma handled_weaken (scope scope' : string -> Prop) (w : World P) (o : Exit (World P)) :
  (forall t, scope t -> scope' t) -> handled scope w o -> handled scope' w o.
Proof.
  intros Hs (w' & Ho & [Hd|(t & Ht & Hout)]); exists w'; split; auto.
  right. exists t. auto.
Qed.

Lemma handled_reject (scope : string -> Prop) (w w1 : World P) (msg : string) (code : Z) :
  Resp w = NewRecorder -> quiet w w1 -> handled scope w (reject msg code w1).
Proof.
  intros Hw Hq. eexists. split; [reflexivity|]. left.
  apply turned_down_reject; assumption.
Qed.

Lemma IngestEvents_handled (r : Request) (w : World P) :
  Resp w = NewRecorder ->
  handled (fun t => context_String (Ctx r) "tenant_id" = Some t) w (IngestEvents r w).
Proof.
  intros Hw.
  destruct (String.eqb (Method r) "POST") eqn:Hm.
  2: { unfold IngestEvents. rewrite Hm. apply handled_reject; [exact Hw|apply quiet_refl]. }
  destruct (context_String (Ctx r) "tenant_id") as [t|] eqn:Hc.
  2: { unfold IngestEvents. rewrite Hm, Hc.
       apply handled_reject; [exact Hw|apply quiet_log]. }
  destruct (String.eqb t "") eqn:Ht.
  { unfold IngestEvents. rewrite Hm, Hc, Ht.
    apply handled_reject; [exact Hw|apply quiet_log]. }
  destruct (Body r) as [body|e] eqn:Hb.
  2: { unfold IngestEvents. rewrite Hm, Hc, Ht, Hb.
       apply handled_reject; [exact Hw|apply quiet_log]. }
  destruct (json_Unmarshal body) as [event|e] eqn:Hj.
  2: { unfold IngestEvents. rewrite Hm, Hc, Ht, Hb. cbn [io_ReadAll negb].
       rewrite Hj. apply handled_reject; [exact Hw|apply quiet_log]. }
  assert (Hd : decodes r t event).
  { apply String.eqb_eq in Hm. apply String.eqb_neq in Ht.
    split; [exact Hm|]. split; [exact Hc|]. split; [exact Ht|]. eauto. }
  destruct (String.eqb (Category event) "") eqn:Hcat.
  - apply String.eqb_eq in Hcat.
    rewrite (IngestEvents_missing_category r w t event Hd Hcat).
    apply handled_reject; [exact Hw|apply quiet_refl].
  - apply String.eqb_neq in Hcat.
    rewrite (IngestEvents_run r w t event Hd Hcat). cbn zeta.
    unfold call_Publish. world_simpl.
    change (enrich t r (read_clock (draw_uuid w)) event) with (enrich t r w event).
    destruct (Publish (topic_of t) (enrich t r w event) (Bus w)) as [bus' err] eqn:Hp.
    destruct err as [e|]; eexists; (split; [reflexivity|]); right; exists t;
      (split; [reflexivity|]); exists (enrich t r w event); rewrite Hp;
      world_simpl; unfold wrote_once; cbn [fst snd]; rewrite Hw;
      repeat split; reflexivity.
Qed.

Lemma authMux_handled (r : Request) (w : World P) :
  Resp w = NewRecorder ->
  handled (fun t => context_String (Ctx r) "tenant_id" = Some t) w (authMux r w).
Proof.
  intros Hw. unfold authMux, ServeMux_ServeHTTP.
  destruct (mux_route _ r) as [pattern|code msg].
  - cbn [mux_lookup].
    destruct (String.eqb "/v1/ingest/events" pattern).
    + apply IngestEvents_handled, Hw.
    + apply handled_reject; [exact Hw|apply quiet_refl].
  - apply handled_reject; [exact Hw|apply quiet_refl].
Qed.

Lemma JWTAuth_handled (key : string) (next : Handler P) (r : Request) (w : World P) :
  (forall r' w', Resp w' = NewRecorder ->
     handled (fun t => context_String (Ctx r') "tenant_id" = Some t) w' (next r' w')) ->
  Resp w = NewRecorder ->
  context_String (Ctx r) "tenant_id" <> None ->
  handled (fun t => context_String (Ctx r) "tenant_id" = Some t) w (JWTAuth key next r w).
Proof.
  intros Hnext Hw Hscope.
  destruct (JWTAuth_shape key next r w)
    as [(msg & code & w1 & Hr & Hq)|[(reason & _ & Hnone)
       |(r' & w1 & Hr & Hq & (_ & _ & _ & Hctx) & _)]].
  - rewrite Hr. apply handled_reject; assumption.
  - contradiction.
  - rewrite Hr. apply (handled_transport _ w w1 _ Hq).
    eapply handled_weaken; [|apply Hnext].
    + intros t Ht. rewrite <- Hctx. exact Ht.
    + destruct Hq as [Hresp _]. rewrite Hresp. exact Hw.
Qed.

Lemma TenantValidator_handled (key : string) (next : Handler P) (r : Request) (w : World P) :
  (forall r' w', Resp w' = NewRecorder ->
     context_String (Ctx r') "tenant_id" <> None ->
     handled (fun t => context_String (Ctx r') "tenant_id" = Some t) w' (next r' w')) ->
  Resp w = NewRecorder ->
  handled (fun t => t = tenant_header r) w (TenantValidator key next r w).
Proof.
  intros Hnext Hw.
  destruct (Z_lt_le_dec (len (tenant_header r)) 3) as [H3|H3];
    [|destruct (Z_lt_le_dec 63 (len (tenant_header r))) as [H63|H63]].
  3: { rewrite TenantValidator_forwards by lia.
       eapply handled_weaken; [|apply Hnext; [exact Hw|]].
       - intros t Ht. rewrite with_tenant_scope in Ht. congruence.
       - rewrite with_tenant_scope. discriminate. }
  all: assert (Hlen : len (tenant_header r) < 3 \/ 63 < len (tenant_header r)) by lia.
  all: destruct (TenantValidator_rejects key r w Hlen) as (msg & fields & Hr).
  all: rewrite Hr; apply handled_reject; [exact Hw|apply quiet_log].
Qed.

(** The whole chain: the reply of the inner handlers, then the logger's
    entry with that reply's status. *)
Lemma ingest_chain_run (key : string) (r : Request) (w : World P) :
  exists inner,
    serve (ingest_chain key) r w
    = Returned (log InfoLevel
                  (LogFields (request_entry r (Code (Resp inner))
                                (time_Now (ClockReads inner) - time_Now (ClockReads w))))
                  "HTTP request" (read_clock inner))
    /\ (turned_down w inner \/ went_out (tenant_header r) w inner).
Proof.
  assert (Hinner : handled (fun t => t = tenant_header r) (read_clock (fresh w))
                     (TenantValidator key (JWTAuth key authMux) r (read_clock (fresh w)))).
  { apply TenantValidator_handled; [|reflexivity].
    intros r1 w1 Hw1 Hscope. apply JWTAuth_handled; [|exact Hw1|exact Hscope].
    intros r2 w2. apply authMux_handled. }
  destruct Hinner as (inner & Hrun & Hcase).
  exists inner. split.
  - unfold serve.
    change (ingest_chain key)
      with (RequestLogger (TenantValidator key (JWTAuth key authMux))).
    unfold RequestLogger. rewrite Hrun.
    assert (Hone : wrote_once (Resp inner)).
    { destruct Hcase as [(_ & _ & _ & Hone)|(t & _ & ev & _ & _ & _ & _ & _ & Hone & _)];
        exact Hone. }
    cbn [read_clock fresh on_Resp Resp HeaderCalls NewRecorder length drop ClockReads].
    rewrite Hone. reflexivity.
  - destruct Hcase as [Hd|(t & -> & Hout)]; [left; exact Hd|right; exact Hout].
Qed.

End Handled.

(** ** What every request gets *)

Section EveryRequest.
Context {P : Type} `{Publisher P} `{Externals}.

(** X8: behind [TenantValidator], the unchecked assertion of [JWTAuth]
    never fires: for every request, key and library behaviour the chain
    returns (it does not panic), and it has set the status by exactly one
    [WriteHeader] call. *)
Theorem ingest_chain_always_replies (key : string) (r : Request) (w : World P) :
  exists w',
    serve (ingest_chain key) r w = Returned w'
    /\ HeaderCalls (Resp w') = [Code (Resp w')].
Proof.
  destruct (ingest_chain_run key r w) as (inner & Hrun & Hcase).
  eexists. split; [exact Hrun|]. world_simpl.
  destruct Hcase as [(_ & _ & _ & Hone)|(ev & _ & _ & _ & _ & _ & Hone & _)];
    exact Hone.
Qed.

(** X9: the request log tells the truth about the reply: the last log
    entry after any request through the chain is the logger's "HTTP
    request" entry, with the request's method, path and remote address,
    the status code the client was sent, and the difference of the
    logger's two clock readings as duration. *)
Theorem request_log_matches_reply (key : string) (r : Request) (w : World P) :
  exists n,
    ClockReads (final (serve (ingest_chain key) r w)) = S n
    /\ last (Logs (final (serve (ingest_chain key) r w)))
       = Some (request_entry r (Code (Resp (final (serve (ingest_chain key) r w))))
                 (time_Now n - time_Now (ClockReads w))).
Proof.
  destruct (ingest_chain_run key r w) as (inner & Hrun & _).
  exists (ClockReads inner). rewrite Hrun. world_simpl.
  split; [reflexivity|]. apply last_snoc.
Qed.

Lemma serve_all_cons (h : Handler P) (r : Request) (rs : list Request) (w : World P) :
  serve_all h (r :: rs) w = serve_all h rs (final (serve h r w)).
Proof. reflexivity. Qed.

Lemma ingest_chain_step (key : string) (r : Request) (w : World P) :
  (UUIDDraws (final (serve (ingest_chain key) r w)) = UUIDDraws w
   /\ Bus (final (serve (ingest_chain key) r w)) = Bus w
   /\ PublishCalls (final (serve (ingest_chain key) r w)) = PublishCalls w)
  \/ (exists ev,
        TenantID ev = tenant_header r
        /\ EventID ev = uuid_New (UUIDDraws w)
        /\ UUIDDraws (final (serve (ingest_chain key) r w)) = S (UUIDDraws w)
        /\ Bus (final (serve (ingest_chain key) r w))
           = fst (Publish (topic_of (tenant_header r)) ev (Bus w))
        /\ PublishCalls (final (serve (ingest_chain key) r w))
           = PublishCalls w ++ [(topic_of (tenant_header r), ev)]).
Proof.
  destruct (ingest_chain_run key r w) as (inner & Hrun & Hcase).
  rewrite Hrun. world_simpl.
  destruct Hcase as [(Hb & Hc & Hd & _)|(ev & Hten & Hid & Hb & Hc & Hd & _)].
  - left. auto.
  - right. exists ev. auto.
Qed.

(** X10: event identifiers follow the generator, one draw per published
    event: after any sequence of requests, the identifiers of the events
    published since the start are the draws [UUIDDraws w], [UUIDDraws w +
    1], ... in order, and the draw counter has advanced by their number.
    So no two published events share an identifier unless the generator
    itself repeats a draw. *)
Theorem event_ids_follow_the_draws (key : string) (rs : list Request) (w : World P) :
  exists new,
    PublishCalls (serve_all (ingest_chain key) rs w) = PublishCalls w ++ new
    /\ map (fun c => EventID (snd c)) new
       = map uuid_New (seq (UUIDDraws w) (length new))
    /\ UUIDDraws (serve_all (ingest_chain key) rs w) = (UUIDDraws w + length new)%nat
    /\ ((forall i j, (UUIDDraws w <= i < j)%nat ->
                      (j < UUIDDraws w + length new)%nat ->
                      uuid_New i <> uuid_New j) ->
        NoDup (map (fun c => EventID (snd c)) new)).
Proof.
  revert w. induction rs as [|r rs IH]; intros w.
  - exists []. cbn. rewrite app_nil_r, Nat.add_0_r.
    repeat split; try reflexivity. intros _. constructor.
  - rewrite serve_all_cons.
    destruct (IH (final (serve (ingest_chain key) r w)))
      as (new & Hcalls & Hids & Hdraws & _).
    assert (Hmain : exists new',
               PublishCalls (serve_all (ingest_chain key) rs
                               (final (serve (ingest_chain key) r w)))
               = PublishCalls w ++ new'
               /\ map (fun c => EventID (snd c)) new'
                  = map uuid_New (seq (UUIDDraws w) (length new'))
               /\ UUIDDraws (serve_all (ingest_chain key) rs
                               (final (serve (ingest_chain key) r w)))
                  = (UUIDDraws w + length new')%nat).
    { destruct (ingest_chain_step key r w)
        as [(Hd & _ & Hc)|(ev & _ & Hid & Hd & _ & Hc)].
      - exists new. rewrite Hcalls, Hc, Hids, Hdraws, Hd. auto.
      - exists ((topic_of (tenant_header r), ev) :: new).
        rewrite Hcalls, Hc, Hdraws, Hd, <- app_assoc. cbn [app length map seq snd].
        rewrite Hid, Hids, Hd. repeat split; try reflexivity; lia. }
    destruct Hmain as (new' & Hc' & Hi' & Hd').
    exists new'. split; [exact Hc'|]. split; [exact Hi'|]. split; [exact Hd'|].
    intros Hinj. rewrite Hi'. apply NoDup_fmap_2_strong; [|apply NoDup_seq].
    intros i j Hi Hj Heq. apply elem_of_seq in Hi, Hj.
    destruct (Nat.lt_trichotomy i j) as [Hlt|[Heq'|Hgt]]; [|exact Heq'|].
    + exfalso. apply (Hinj i j); [lia|lia|exact Heq].
    + exfalso. apply (Hinj j i); [lia|lia|symmetry; exact Heq].
Qed.

(** X11: the server [main] builds, for any environment, publishes only
    what the chain admits: whatever the multiplexer decides, a request
    either leaves the bus as it was or is published once after passing
    every check, the ones of the configured key included; the probe
    endpoints never publish. *)
Theorem server_publishes_only_admitted (env : config.Environ) (r : Request) (w : World P) :
  effect (admitted (config.JWTPublicKey (config.Load env)) r) w
         (serve (main_handler env) r w).
Proof.
  unfold serve, main_handler, server_mux, ServeMux_ServeHTTP.
  destruct (mux_route _ r) as [pattern|code msg].
  - cbn [mux_lookup].
    destruct (String.eqb "/health" pattern); [left; split; reflexivity|].
    destruct (String.eqb "/ready" pattern); [left; split; reflexivity|].
    destruct (String.eqb "/metrics" pattern); [left; split; reflexivity|].
    destruct (String.eqb "/v1/" pattern).
    + apply ingest_chain_effect.
    + left. split; reflexivity.
  - left. split; reflexivity.
Qed.

(** X12: the probes are outside the middleware: a request the multiplexer
    sends to ["/health"], ["/ready"] or ["/metrics"] is answered 200
    whatever its method, headers and body (no tenant header, no token),
    and nothing is logged, drawn or published. *)
Theorem probes_need_no_credentials (key pattern : string) (r : Request) (w : World P) :
  mux_route ["/health"; "/ready"; "/metrics"; "/v1/"] r = MuxPattern pattern ->
  In pattern ["/health"; "/ready"; "/metrics"] ->
  exists w',
    serve (server_mux key) r w = Returned w'
    /\ Code (Resp w') = StatusOK
    /\ Logs w' = Logs w
    /\ UUIDDraws w' = UUIDDraws w
    /\ ClockReads w' = ClockReads w
    /\ unchanged w w'.
Proof.
  intros Hroute Hin. unfold serve, server_mux, ServeMux_ServeHTTP.
  cbn [map fst]. rewrite Hroute.
  destruct Hin as [<-|[<-|[<-|[]]]]; cbn; eexists; repeat split.
Qed.

End EveryRequest.

Lemma probes_need_no_credentials_witness :
  exists w',
    serve (server_mux "configured-key")
      {| Method := "DELETE"; URLPath := "/health"; ReqHeader := ∅;
         RemoteAddr := "192.0.2.1:1234"; Body := BodyBytes ""; Ctx := [] |}
      Demo.world0 = Returned w'
    /\ Code (Resp w') = StatusOK
    /\ Logs w' = [].
Proof.
  destruct (probes_need_no_credentials (P := MockPublisher) "configured-key" "/health"
              {| Method := "DELETE"; URLPath := "/health"; ReqHeader := ∅;
                 RemoteAddr := "192.0.2.1:1234"; Body := BodyBytes ""; Ctx := [] |}
              Demo.world0)
    as (w' & Hrun & Hcode & Hlogs & _).
  - reflexivity.
  - left. reflexivity.
  - exists w'. split; [exact Hrun|]. split; [exact Hcode|exact Hlogs].
Defined.

(** ** Tenants on the mock bus *)

Lemma topic_of_inj (t1 t2 : string) : topic_of t1 = topic_of t2 -> t1 = t2.
Proof. apply append_inv_head. Qed.

Section MockBus.
Context `{Externals}.

Lemma mock_step_other (key : string) (r : Request) (w : World MockPublisher)
      (topic : string) :
  topic <> topic_of (tenant_header r) ->
  GetPublished (Bus (final (serve (ingest_chain key) r w))) topic
  = GetPublished (Bus w) topic.
Proof.
  intros Hne.
  destruct (ingest_chain_step key r w) as [(_ & Hb & _)|(ev & _ & _ & _ & Hb & _)];
    rewrite Hb; [reflexivity|].
  apply GetPublished_publish_other, Hne.
Qed.

(** X13: on the mock bus, requests of other tenants never change what a
    tenant's topic holds: after any sequence of requests none of which
    carries [t] in its [X-Tenant-ID] header, whatever their tokens and
    bodies, [GetPublished] on the topic of [t] returns what it returned
    before. *)
Theorem other_tenants_leave_topic_alone (key : string) (rs : list Request)
        (w : World MockPublisher) (t : string) :
  Forall (fun r => tenant_header r <> t) rs ->
  GetPublished (Bus (serve_all (ingest_chain key) rs w)) (topic_of t)
  = GetPublished (Bus w) (topic_of t).
Proof.
  intros Hall. revert w. induction Hall as [|r rs Hr _ IH]; intros w; [reflexivity|].
  rewrite serve_all_cons, IH. apply mock_step_other.
  intros Heq. apply topic_of_inj in Heq. congruence.
Qed.

Lemma mock_step_owned (key : string) (r : Request) (w : World MockPublisher) :
  (forall topic e, In e (GetPublished (Bus w) topic) -> topic = topic_of (TenantID e)) ->
  forall topic e,
    In e (GetPublished (Bus (final (serve (ingest_chain key) r w))) topic) ->
    topic = topic_of (TenantID e).
Proof.
  intros Hinv topic e.
  destruct (ingest_chain_step key r w) as [(_ & Hb & _)|(ev & Hten & _ & _ & Hb & _)];
    rewrite Hb; [apply Hinv|].
  destruct (string_dec topic (topic_of (tenant_header r))) as [->|Hne].
  - cbn [Publish MockPublisher_Publisher]. rewrite GetPublished_publish_same.
    intros Hin. apply in_app_or in Hin as [Hin|[<-|[]]].
    + apply Hinv, Hin.
    + rewrite Hten. reflexivity.
  - cbn [Publish MockPublisher_Publisher].
    rewrite GetPublished_publish_other by exact Hne. apply Hinv.
Qed.

(** X14: on the mock bus no topic ever holds another tenant's event:
    starting from an empty publisher, after any sequence of requests
    through the chain every event stored under a topic carries the tenant
    that topic belongs to. *)
Theorem mock_topics_hold_own_tenant (key : string) (rs : list Request)
        (topic : string) (e : Event) :
  In e (GetPublished
          (Bus (serve_all (ingest_chain key) rs (initial_world NewMockPublisher))) topic) ->
  topic = topic_of (TenantID e).
Proof.
  assert (Hgen : forall w : World MockPublisher,
             (forall topic e, In e (GetPublished (Bus w) topic) ->
                              topic = topic_of (TenantID e)) ->
             forall topic e,
               In e (GetPublished (Bus (serve_all (ingest_chain key) rs w)) topic) ->
               topic = topic_of (TenantID e)).
  { induction rs as [|r rs IH]; intros w Hinv; [exact Hinv|].
    rewrite serve_all_cons. apply IH, mock_step_owned, Hinv. }
  apply Hgen. intros topic' e' Hin.
  unfold GetPublished in Hin. cbn in Hin. rewrite lookup_empty in Hin. destruct Hin.
Qed.

End MockBus.

Lemma other_tenants_leave_topic_alone_witness :
  Forall (fun r => tenant_header r <> "acme-corp")
    [Demo.post "other-corp" "Bearer token.of.other-corp" Demo.body_auth;
     Demo.post "other-corp" "Bearer token.of.other-corp" Demo.body_bogus]
  /\ GetPublished
       (Bus (serve_all (ingest_chain "")
               [Demo.post "other-corp" "Bearer token.of.other-corp" Demo.body_auth;
                Demo.post "other-corp" "Bearer token.of.other-corp" Demo.body_bogus]
               (final (serve (ingest_chain "")
                         (Demo.post "acme-corp" "Bearer token.of.acme-corp" Demo.body_auth)
                         Demo.world0))))
       (topic_of "acme-corp")
     = GetPublished
         (Bus (final (serve (ingest_chain "")
                        (Demo.post "acme-corp" "Bearer token.of.acme-corp" Demo.body_auth)
                        Demo.world0)))
         (topic_of "acme-corp")
  /\ length (GetPublished
               (Bus (final (serve (ingest_chain "")
                              (Demo.post "acme-corp" "Bearer token.of.acme-corp" Demo.body_auth)
                              Demo.world0)))
               (topic_of "acme-corp")) = 1%nat.
Proof.
  assert (Hall : Forall (fun r => tenant_header r <> "acme-corp")
            [Demo.post "other-corp" "Bearer token.of.other-corp" Demo.body_auth;
             Demo.post "other-corp" "Bearer token.of.other-corp" Demo.body_bogus]).
  { repeat constructor; vm_compute; discriminate. }
  split; [exact Hall|]. split.
  - exact (other_tenants_leave_topic_alone "" _ _ "acme-corp" Hall).
  - vm_compute. reflexivity.
Defined.

Lemma mock_topics_hold_own_tenant_witness :
  exists e,
    In e (GetPublished
            (Bus (serve_all (ingest_chain "")
                    [Demo.post "acme-corp" "Bearer token.of.other-corp" Demo.body_forged]
                    (initial_world NewMockPublisher)))
            "raw.events.acme-corp")
    /\ "raw.events.acme-corp" = topic_of (TenantID e).
Proof.
  eexists. split.
  - vm_compute. left. reflexivity.
  - refine (mock_topics_hold_own_tenant ""
              [Demo.post "acme-corp" "Bearer token.of.other-corp" Demo.body_forged] _ _ _).
    vm_compute. left. reflexivity.
Defined.

(** ** Admitted requests are published *)

Section Completeness.
Context {P : Type} `{Publisher P} `{Externals}.

Lemma with_subject_same (r : Request) (claims : gmap string JSONValue) :
  Method (with_subject r claims) = Method r
  /\ URLPath (with_subject r claims) = URLPath r
  /\ ReqHeader (with_subject r claims) = ReqHeader r
  /\ Body (with_subject r claims) = Body r
  /\ RemoteAddr (with_subject r claims) = RemoteAddr r
  /\ context_String (Ctx (with_subject r claims)) "tenant_id"
     = context_String (Ctx r) "tenant_id".
Proof.
  unfold with_subject. destruct (claims !! "sub") as [[]|]; repeat split; reflexivity.
Qed.

Lemma admitted_reaches_handler (key : string) (r : Request) (w : World P) (t : string) :
  admitted key r t ->
  routes_to_ingest r ->
  exists r' w1 event,
    TenantValidator key (JWTAuth key authMux) r w = IngestEvents r' w1
    /\ quiet w w1
    /\ decodes r' t event /\ Category event <> ""
    /\ RemoteAddr r' = RemoteAddr r.
Proof.
  intros (-> & Hlen & Hbearer & Hauth & Hpost & body & event & Hb & Hj & Hcat) Hroute.
  rewrite TenantValidator_forwards by exact Hlen.
  assert (Hmux : forall r' w',
             Method r' = Method r -> URLPath r' = URLPath r -> ReqHeader r' = ReqHeader r ->
             authMux r' w' = IngestEvents r' w').
  { intros r' w' Hm Hu Hh. unfold authMux, ServeMux_ServeHTTP. cbn [map fst].
    rewrite (Hroute r' Hm Hu Hh). cbn [mux_lookup]. rewrite String.eqb_refl. reflexivity. }
  assert (Hne : tenant_header r <> "").
  { intros He. rewrite He in Hlen. change (len "") with 0 in Hlen. lia. }
  destruct (string_dec key "") as [->|Hk].
  - destruct (bearer_token r) as [tokenString|] eqn:Htok; [|contradiction].
    exists (with_tenant r),
      (log WarnLevel [] "JWT validation disabled (no public key configured)" w), event.
    split; [|split; [apply quiet_log|split; [|split; [exact Hcat|reflexivity]]]].
    + rewrite (JWTAuth_dev_mode _ _ tokenString) by exact Htok.
      apply Hmux; reflexivity.
    + split; [exact Hpost|]. split; [apply with_tenant_scope|].
      split; [exact Hne|]. exists body. auto.
  - destruct Hauth as [Hk'|(tokenString & token & claims & Htok & Hparse & Hv & Hc & Ht)];
      [contradiction|].
    assert (Hver : verified_claims key (with_tenant r) claims)
      by (exists tokenString, token; auto).
    destruct (with_subject_same (with_tenant r) claims)
      as (Hm & Hu & Hh & Hbody & Ha & Hctx).
    exists (with_subject (with_tenant r) claims), w, event.
    split; [|split; [apply quiet_refl|split; [|split; [exact Hcat|exact Ha]]]].
    + rewrite (verified_claims_run key authMux (with_tenant r) w claims
                 (tenant_header r) Hk Hver Ht).
      cbn [with_tenant WithContext Ctx context_WithValue context_Value].
      rewrite !String.eqb_refl. cbn [negb].
      apply Hmux; assumption.
    + split; [rewrite Hm; exact Hpost|]. split; [rewrite Hctx; apply with_tenant_scope|].
      split; [exact Hne|]. exists body. rewrite Hbody. auto.
Qed.

(** X15: the converse of the rejection property: a request that passes
    every check (well-formed tenant header, bearer token, with a key
    configured a verified token whose claim equals the header, POST, a
    body that decodes to an event with a category) and that the
    multiplexer routes to the ingest endpoint is published exactly once,
    on the topic of its tenant, and answered 202, or 500 when the
    publisher fails. *)
Theorem admitted_requests_are_published (key : string) (r : Request) (w : World P)
        (t : string) :
  admitted key r t ->
  routes_to_ingest r ->
  exists ev,
    PublishCalls (final (serve (ingest_chain key) r w))
    = PublishCalls w ++ [(topic_of t, ev)]
    /\ TenantID ev = t
    /\ Host (EventSource ev) = RemoteAddr r
    /\ Bus (final (serve (ingest_chain key) r w)) = fst (Publish (topic_of t) ev (Bus w))
    /\ Code (Resp (final (serve (ingest_chain key) r w)))
       = match snd (Publish (topic_of t) ev (Bus w)) with
         | None => StatusAccepted
         | Some _ => StatusInternalServerError
         end.
Proof.
  intros Hadm Hroute.
  destruct (admitted_reaches_handler key r (read_clock (fresh w)) t Hadm Hroute)
    as (r' & w1 & event & Hrun & (Hresp & Hbus & Hcalls & Hdraws & Hclock) & Hd & Hcat & Ha).
  destruct (IngestEvents_publishes r' w1 t event Hd Hcat) as (Hc & Hb & _ & Hcode).
  exists (enrich t r' w1 event).
  unfold serve.
  change (ingest_chain key)
    with (RequestLogger (TenantValidator key (JWTAuth key authMux))).
  unfold RequestLogger. rewrite Hrun.
  destruct (IngestEvents r' w1) as [w'|reason w']; world_simpl.
  all: rewrite Hc, Hb, Hcode, Hcalls, Hbus by (rewrite Hresp; reflexivity).
  all: repeat split; try reflexivity; cbn; exact Ha.
Qed.

End Completeness.

Lemma Demo_routes_post (tenant authorization body : string) :
  routes_to_ingest (Demo.post tenant authorization body).
Proof.
  intros r' _ Hu _. cbn. unfold Demo.route. rewrite Hu. reflexivity.
Qed.

Lemma Demo_admitted_dev :
  admitted "" (Demo.post "acme-corp" "Bearer token.of.other-corp" Demo.body_auth)
           "acme-corp".
Proof.
  split; [vm_compute; reflexivity|].
  split; [vm_compute; split; discriminate|].
  split; [vm_compute; discriminate|].
  split; [left; reflexivity|].
  split; [reflexivity|].
  exists Demo.body_auth, (Demo.with_Category "auth" zero_Event).
  split; [reflexivity|]. split; [reflexivity|discriminate].
Qed.

(** The service as configured by default (no key): any bearer token
    will do. *)
Lemma admitted_requests_are_published_witness :
  exists ev,
    PublishCalls (final (serve (ingest_chain "")
                           (Demo.post "acme-corp" "Bearer token.of.other-corp" Demo.body_auth)
                           Demo.world0))
    = [(topic_of "acme-corp", ev)]
    /\ TenantID ev = "acme-corp"
    /\ Code (Resp (final (serve (ingest_chain "")
                            (Demo.post "acme-corp" "Bearer token.of.other-corp" Demo.body_auth)
                            Demo.world0)))
       = StatusAccepted.
Proof.
  destruct (admitted_requests_are_published ""
              (Demo.post "acme-corp" "Bearer token.of.other-corp" Demo.body_auth)
              Demo.world0 "acme-corp" Demo_admitted_dev (Demo_routes_post _ _ _))
    as (ev & Hcalls & Hten & _ & _ & Hcode).
  exists ev. split; [exact Hcalls|]. split; [exact Hten|exact Hcode].
Defined.

(** ** Tenant topics *)

Section TenantTopics.
Context {P : Type} `{Publisher P} `{Externals}.

(** C8: an accepted event is published, once, on the topic ["raw.events."]
    followed by its tenant identifier: the handler does so for every
    request in tenant scope that decodes to an event with a category, and
    the chain for every request that passes its checks, the tenant being
    the value of the [X-Tenant-ID] header.  The topic depends on the
    tenant alone, distinct tenants have distinct topics, and nothing a
    request makes the chain publish (at most one event) goes to a topic
    other than that of the event's own tenant. *)
Theorem topic_is_tenant_scoped :
  (forall (r : Request) (w : World P) (t : string) (event : Event),
      decodes r t event -> Category event <> "" ->
      exists ev,
        PublishCalls (final (serve IngestEvents r w))
        = PublishCalls w ++ [(("raw.events." ++ t)%string, ev)]
        /\ TenantID ev = t)
  /\ (forall (key : string) (r : Request) (w : World P) (t : string),
         admitted key r t -> routes_to_ingest r ->
         exists ev,
           PublishCalls (final (serve (ingest_chain key) r w))
           = PublishCalls w ++ [(("raw.events." ++ tenant_header r)%string, ev)]
           /\ TenantID ev = tenant_header r)
  /\ (forall t, topic_of t = ("raw.events." ++ t)%string)
  /\ (forall t1 t2, topic_of t1 = topic_of t2 -> t1 = t2)
  /\ (forall (key : string) (r : Request) (w : World P),
        exists new,
          PublishCalls (final (serve (ingest_chain key) r w)) = PublishCalls w ++ new
          /\ (length new <= 1)%nat
          /\ Forall (fun c => fst c = ("raw.events." ++ TenantID (snd c))%string
                              /\ TenantID (snd c) = tenant_header r) new).
Proof.
  split; [|split; [|split; [|split]]].
  - intros r w t event Hd Hcat. unfold serve.
    destruct (IngestEvents_publishes r (fresh w) t event Hd Hcat) as (Hcalls & _).
    exists (enrich t r (fresh w) event). split; [exact Hcalls|reflexivity].
  - intros key r w t Hadm Hroute.
    assert (Ht : t = tenant_header r) by (destruct Hadm as [Ht _]; exact Ht).
    subst t.
    destruct (admitted_reaches_handler key r (read_clock (fresh w)) _ Hadm Hroute)
      as (r' & w1 & event & Hrun & (_ & _ & Hcalls & _) & Hd & Hcat & _).
    destruct (IngestEvents_publishes r' w1 _ event Hd Hcat) as (Hc & _).
    exists (enrich (tenant_header r) r' w1 event). split; [|reflexivity].
    unfold serve.
    change (ingest_chain key)
      with (RequestLogger (TenantValidator key (JWTAuth key authMux))).
    unfold RequestLogger. rewrite Hrun.
    destruct (IngestEvents r' w1) as [w'|reason w']; world_simpl;
      rewrite Hc, Hcalls; reflexivity.
  - reflexivity.
  - intros t1 t2 Ht. exact (append_inv_head _ _ _ Ht).
  - intros key r w.
    destruct (ingest_chain_effect key r w)
      as [[_ Hcalls]|(t & (Ht & _) & ev & Hcalls & Hten & _)].
    + exists []. rewrite Hcalls, app_nil_r.
      split; [reflexivity|]. split; [cbn; lia|constructor].
    + exists [(topic_of t, ev)]. split; [exact Hcalls|]. split; [cbn; lia|].
      constructor; [|constructor]. cbn [fst snd]. rewrite Hten. auto.
Qed.

End TenantTopics.

(** A request in the default configuration: one event on
    ["raw.events.acme-corp"]. *)
Lemma topic_is_tenant_scoped_witness :
  admitted "" (Demo.post "acme-corp" "Bearer token.of.other-corp" Demo.body_auth)
           "acme-corp"
  /\ exists ev,
       PublishCalls (final (serve (ingest_chain "")
                              (Demo.post "acme-corp" "Bearer token.of.other-corp"
                                 Demo.body_auth)
                              Demo.world0))
       = [("raw.events.acme-corp", ev)]
       /\ TenantID ev = "acme-corp".
Proof.
  split; [exact Demo_admitted_dev|].
  exact (proj1 (proj2 (topic_is_tenant_scoped (P := MockPublisher)))
           "" _ Demo.world0 "acme-corp" Demo_admitted_dev (Demo_routes_post _ _ _)).
Defined.

(** ** The NATS publisher behind the handler *)

Section NATSBehind.
Context {C J : Type} `{NATSLib C J} `{Externals}.

Lemma NATS_Publish_marshal_fails (topic : string) (event : Event)
      (p : NATSPublisher C J) (e : string) :
  json_Marshal event = Err e -> NATS_Publish topic event p = (p, Some e).
Proof. intros Hm. unfold NATS_Publish. rewrite Hm. reflexivity. Qed.

Lemma NATS_Publish_sends (topic : string) (event : Event)
      (p : NATSPublisher C J) (data : string) :
  json_Marshal event = Ok data ->
  js (fst (NATS_Publish topic event p)) = fst (js_Publish topic data (js p))
  /\ snd (NATS_Publish topic event p) = snd (js_Publish topic data (js p))
  /\ conn (fst (NATS_Publish topic event p)) = conn p.
Proof.
  intros Hm. unfold NATS_Publish. rewrite Hm.
  destruct (js_Publish topic data (js p)) as [js' [e|]]; repeat split.
Qed.

(** X16: with the NATS publisher behind the ingest handler, what reaches
    JetStream is the serialization of the enriched event (tenant of the
    request context, identifier of the draw) on the tenant's topic, and
    the client is answered 202 exactly when JetStream accepts it; when
    the event cannot be serialized, JetStream is not called at all, the
    publisher is left as it was and the client is answered 500. *)
Theorem NATS_receives_the_enriched_event (r : Request)
        (w : World (NATSPublisher C J)) (t : string) (event : Event) :
  decodes r t event ->
  Category event <> "" ->
  (forall e, json_Marshal (enrich t r (fresh w) event) = Err e ->
             Bus (final (serve IngestEvents r w)) = Bus w
             /\ Code (Resp (final (serve IngestEvents r w))) = StatusInternalServerError)
  /\ (forall data, json_Marshal (enrich t r (fresh w) event) = Ok data ->
        js (Bus (final (serve IngestEvents r w)))
        = fst (js_Publish (topic_of t) data (js (Bus w)))
        /\ conn (Bus (final (serve IngestEvents r w))) = conn (Bus w)
        /\ (Code (Resp (final (serve IngestEvents r w))) = StatusAccepted
            <-> snd (js_Publish (topic_of t) data (js (Bus w))) = None)
        /\ (Code (Resp (final (serve IngestEvents r w))) = StatusInternalServerError
            <-> snd (js_Publish (topic_of t) data (js (Bus w))) <> None)).
Proof.
  intros Hd Hcat.
  destruct (IngestEvents_publishes r (fresh w) t event Hd Hcat) as (_ & Hbus & _ & Hcode).
  specialize (Hcode eq_refl). unfold serve.
  change (Bus (fresh w)) with (Bus w) in *.
  cbn [Publish NATSPublisher_Publisher] in *.
  split.
  - intros e Hm. rewrite Hbus, Hcode, (NATS_Publish_marshal_fails _ _ _ e Hm).
    split; reflexivity.
  - intros data Hm.
    destruct (NATS_Publish_sends (topic_of t) (enrich t r (fresh w) event) (Bus w) data Hm)
      as (Hjs & Herr & Hconn).
    rewrite Hbus, Hcode, Hjs, Hconn, Herr.
    split; [reflexivity|]. split; [reflexivity|].
    destruct (snd (js_Publish (topic_of t) data (js (Bus w)))) as [e|]; split.
    + split; [discriminate|discriminate].
    + split; [discriminate|reflexivity].
    + split; [reflexivity|reflexivity].
    + split; [discriminate|intros Hn; contradiction].
Qed.

End NATSBehind.

Lemma NATS_receives_the_enriched_event_witness :
  js (Bus (final (serve IngestEvents
            (WithContext (Demo.post "acme-corp" "Bearer token.of.acme-corp" Demo.body_auth)
               [("tenant_id", CtxString "acme-corp")]) Demo2.world0)))
  = [("raw.events.acme-corp",
      ("{" ++ Demo.member "event_id" "123e4567-e89b-42d3-a456-426614174000" ++ ","
           ++ Demo.member "category" "auth" ++ "}")%string)]
  /\ Code (Resp (final (serve IngestEvents
            (WithContext (Demo.post "acme-corp" "Bearer token.of.acme-corp" Demo.body_auth)
               [("tenant_id", CtxString "acme-corp")]) Demo2.world0)))
     = StatusAccepted.
Proof.
  destruct (NATS_receives_the_enriched_event
              (WithContext (Demo.post "acme-corp" "Bearer token.of.acme-corp" Demo.body_auth)
                 [("tenant_id", CtxString "acme-corp")])
              Demo2.world0 "acme-corp" _
              (Demo_decodes_for "acme-corp" Demo.body_auth _ ltac:(discriminate) eq_refl))
    as (_ & Hsend).
  - discriminate.
  - destruct (Hsend _ eq_refl) as (Hjs & _ & Hcode & _).
    split; [exact Hjs|]. apply Hcode. reflexivity.
Defined.
